(** * Driver factory of workflow/artifacts/artifacts.go

    A shallow embedding of [NewDriver], the function that turns an artifact
    descriptor and a secret resolver into a configured artifact driver, and
    the properties of its dispatch, its credential resolution and its error
    results.

    Go values are modelled as the code has them:
    - a [string] is a [string], the zero value is the empty string;
    - a pointer that the code compares against [nil] is an [option];
    - a pair of results [(T, error)] is a pair [T * option error], where
      [None] in the second component is the [nil] error;
    - the calls [ri.GetSecret(ctx, name, key)] are the only effect of the
      function; they are the events of a small free monad, interpreted
      against an arbitrary, possibly stateful, resolver. *)

From Stdlib Require Import String List Bool Arith Lia.
Import ListNotations.
Open Scope string_scope.

Set Implicit Arguments.

(** ** Errors *)

(** Go's [error] values.  [ErrUnsupportedDriver] is the package-level
    sentinel of artifacts.go; every other error comes from outside the
    factory (the secret resolver, the HDFS constructor). *)
Inductive error : Type :=
| ErrUnsupportedDriver
| ExternalError (msg : string).

Definition error_eqb (a b : error) : bool :=
  match a, b with
  | ErrUnsupportedDriver, ErrUnsupportedDriver => true
  | ExternalError m, ExternalError n => String.eqb m n
  | _, _ => false
  end.

(** ** Descriptor types (package wfv1) *)

(** Modelled from the spec: the declarations of the wfv1 descriptor types
    are not part of the source file, so each type carries exactly the fields
    that [NewDriver] reads.  A secret reference whose members are read
    without a [nil] test (S3, OSS, GCS, Artifactory) is a value, the pair
    (name, key) of the spec, whose absence is the zero value with an empty
    name; a reference that the code compares against [nil] (Git) is an
    [option]. *)
Record SecretKeySelector : Type := {
  Name : string;
  Key : string
}.

Module S3Artifact.
Record t : Type := {
  Endpoint : string;
  Region : string;
  Insecure : option bool;
  AccessKeySecret : SecretKeySelector;
  SecretKeySecret : SecretKeySelector;
  RoleARN : string;
  UseSDKCreds : bool
}.
End S3Artifact.

Module GitArtifact.
Record t : Type := {
  InsecureIgnoreHostKey : bool;
  UsernameSecret : option SecretKeySelector;
  PasswordSecret : option SecretKeySelector;
  SSHPrivateKeySecret : option SecretKeySelector
}.
End GitArtifact.

Module ArtifactoryArtifact.
Record t : Type := {
  UsernameSecret : SecretKeySelector;
  PasswordSecret : SecretKeySelector
}.
End ArtifactoryArtifact.

Module OSSArtifact.
Record t : Type := {
  Endpoint : string;
  AccessKeySecret : SecretKeySelector;
  SecretKeySecret : SecretKeySelector
}.
End OSSArtifact.

Module GCSArtifact.
Record t : Type := {
  ServiceAccountKeySecret : SecretKeySelector
}.
End GCSArtifact.

(** ** Driver types (packages s3, http, git, artifactory, raw, oss, gcs)

  One record per driver, with the fields of the composite literals of
  [NewDriver]. *)
Module s3.
Record S3ArtifactDriver : Type := {
  Endpoint : string;
  AccessKey : string;
  SecretKey : string;
  Secure : bool;
  Region : string;
  RoleARN : string;
  UseSDKCreds : bool
}.
End s3.

Module http.
Inductive HTTPArtifactDriver : Type := Build_HTTPArtifactDriver.
End http.

Module git.
Record GitArtifactDriver : Type := {
  Username : string;
  Password : string;
  SSHPrivateKey : string;
  InsecureIgnoreHostKey : bool
}.
End git.

Module artifactory.
Record ArtifactoryArtifactDriver : Type := {
  Username : string;
  Password : string
}.
End artifactory.

Module raw.
Inductive RawArtifactDriver : Type := Build_RawArtifactDriver.
End raw.

Module oss.
Record OSSArtifactDriver : Type := {
  Endpoint : string;
  AccessKey : string;
  SecretKey : string
}.
End oss.

Module gcs.
Record ArtifactDriver : Type := {
  ServiceAccountKey : string
}.
End gcs.

(** The eight backends, in the order in which [NewDriver] tests them. *)
Module Backend.
Inductive t : Type := S3 | HTTP | Git | Artifactory | HDFS | Raw | OSS | GCS.

Definition eqb (a b : t) : bool :=
  match a, b with
  | S3, S3 | HTTP, HTTP | Git, Git | Artifactory, Artifactory
  | HDFS, HDFS | Raw, Raw | OSS, OSS | GCS, GCS => true
  | _, _ => false
  end.
End Backend.

(** A call of the resolver, as it appears in a trace: (name, key). *)
Definition Call : Type := (string * string)%type.

Section Factory.

(** [context.Context]; the factory only passes it on. *)
Variable Ctx : Type.

(** Sub-configurations that [NewDriver] only tests against [nil] or hands
    over unread. *)
Variable HTTPArtifact : Type.
Variable RawArtifact : Type.
Variable HDFSArtifact : Type.

(** The driver built by package hdfs. *)
Variable HDFSArtifactDriver : Type.

(** [wfv1.Artifact], restricted to the eight locations tested by
    [NewDriver]. *)
Record Artifact : Type := {
  S3 : option S3Artifact.t;
  HTTP : option HTTPArtifact;
  Git : option GitArtifact.t;
  Artifactory : option ArtifactoryArtifact.t;
  HDFS : option HDFSArtifact;
  Raw : option RawArtifact;
  OSS : option OSSArtifact.t;
  GCS : option GCSArtifact.t
}.

(** The interface [ArtifactDriver]: a value of the interface is one of its
    implementations. *)
Inductive ArtifactDriver : Type :=
| S3Driver (d : s3.S3ArtifactDriver)
| HTTPDriver (d : http.HTTPArtifactDriver)
| GitDriver (d : git.GitArtifactDriver)
| ArtifactoryDriver (d : artifactory.ArtifactoryArtifactDriver)
| HDFSDriver (d : HDFSArtifactDriver)
| RawDriver (d : raw.RawArtifactDriver)
| OSSDriver (d : oss.OSSArtifactDriver)
| GCSDriver (d : gcs.ArtifactDriver).

(** The result pair [(ArtifactDriver, error)]. *)
Definition Result : Type := (option ArtifactDriver * option error)%type.

(** ** Programs over the resolver

    [Prog A] is a computation whose only effect is to call
    [ri.GetSecret(ctx, name, key)] and to go on with the pair it gets. *)
Inductive Prog (A : Type) : Type :=
| Ret (a : A)
| GetSecret (ctx : Ctx) (name key : string)
            (k : string * option error -> Prog A).

Arguments Ret {A} a.
Arguments GetSecret {A} ctx name key k.

Fixpoint bind {A B : Type} (p : Prog A) (f : A -> Prog B) : Prog B :=
  match p with
  | Ret a => f a
  | GetSecret ctx name key k => GetSecret ctx name key (fun r => bind (k r) f)
  end.

Definition getSecret (ctx : Ctx) (name key : string)
  : Prog (string * option error) :=
  GetSecret ctx name key (fun r => Ret r).

(** Statements of a function that returns [R]: a statement either executes
    a [return] ([inl]) or falls through with a value ([inr]). *)
Definition Stmt (R A : Type) : Type := Prog (R + A).

Definition Return {R A : Type} (r : R) : Stmt R A := Ret (inl r).
Definition pure {R A : Type} (a : A) : Stmt R A := Ret (inr a).
Definition skip {R : Type} : Stmt R unit := pure tt.
Definition lift {R A : Type} (p : Prog A) : Stmt R A :=
  bind p (fun a => Ret (inr a)).

Definition seq {R A B : Type} (s : Stmt R A) (f : A -> Stmt R B) : Stmt R B :=
  bind s (fun x => match x with
                   | inl r => Ret (inl r)
                   | inr a => f a
                   end).

(** A function body never falls off its end. *)
Definition call {R : Type} (body : Stmt R Empty_set) : Prog R :=
  bind body (fun x => match x with
                      | inl r => Ret r
                      | inr v => match v with end
                      end).

(** [if err != nil { return nil, err }] *)
Definition check (err : option error) : Stmt Result unit :=
  match err with
  | Some e => Return (None, Some e)
  | None => skip
  end.

Notation "x <- s ;; t" := (seq s (fun x => t))
  (at level 61, s at next level, right associativity).
Notation "' pat <- s ;; t" := (seq s (fun x => match x with pat => t end))
  (at level 61, pat pattern, s at next level, right associativity).
Notation "s ;; t" := (seq s (fun _ => t))
  (at level 61, right associativity).

(** Modelled from the spec: package hdfs is not part of the source file.
    [hdfs.CreateDriver(ctx, ri, art.HDFS)] is a parameter with the contract
    the spec gives it, [(ctx, resolver, config) -> (Driver, error)]: a
    program over the same resolver. *)
Variable CreateDriver : Ctx -> HDFSArtifact -> Prog Result.

(** ** NewDriver *)
Definition NewDriver (ctx : Ctx) (art : Artifact) : Prog Result :=
  call (
    match S3 art with
    | Some art_S3 =>
        '(accessKey, secretKey) <-
          (if negb (Name (S3Artifact.AccessKeySecret art_S3) =? "") then
             '(accessKeyBytes, err) <-
               lift (getSecret ctx (Name (S3Artifact.AccessKeySecret art_S3))
                                   (Key (S3Artifact.AccessKeySecret art_S3))) ;;
             check err ;;
             '(secretKeyBytes, err) <-
               lift (getSecret ctx (Name (S3Artifact.SecretKeySecret art_S3))
                                   (Key (S3Artifact.SecretKeySecret art_S3))) ;;
             check err ;;
             pure (accessKeyBytes, secretKeyBytes)
           else pure ("", "")) ;;
        let driver := {|
          s3.Endpoint := S3Artifact.Endpoint art_S3;
          s3.AccessKey := accessKey;
          s3.SecretKey := secretKey;
          s3.Secure := match S3Artifact.Insecure art_S3 with
                       | None => true
                       | Some insecure => negb insecure
                       end;
          s3.Region := S3Artifact.Region art_S3;
          s3.RoleARN := S3Artifact.RoleARN art_S3;
          s3.UseSDKCreds := S3Artifact.UseSDKCreds art_S3
        |} in
        Return (Some (S3Driver driver), None)
    | None => skip
    end ;;
    match HTTP art with
    | Some _ => Return (Some (HTTPDriver http.Build_HTTPArtifactDriver), None)
    | None => skip
    end ;;
    match Git art with
    | Some art_Git =>
        let gitDriver := {|
          git.Username := "";
          git.Password := "";
          git.SSHPrivateKey := "";
          git.InsecureIgnoreHostKey := GitArtifact.InsecureIgnoreHostKey art_Git
        |} in
        gitDriver <-
          match GitArtifact.UsernameSecret art_Git with
          | Some usernameSecret =>
              '(usernameBytes, err) <-
                lift (getSecret ctx (Name usernameSecret) (Key usernameSecret)) ;;
              check err ;;
              pure {| git.Username := usernameBytes;
                      git.Password := git.Password gitDriver;
                      git.SSHPrivateKey := git.SSHPrivateKey gitDriver;
                      git.InsecureIgnoreHostKey :=
                        git.InsecureIgnoreHostKey gitDriver |}
          | None => pure gitDriver
          end ;;
        gitDriver <-
          match GitArtifact.PasswordSecret art_Git with
          | Some passwordSecret =>
              '(passwordBytes, err) <-
                lift (getSecret ctx (Name passwordSecret) (Key passwordSecret)) ;;
              check err ;;
              pure {| git.Username := git.Username gitDriver;
                      git.Password := passwordBytes;
                      git.SSHPrivateKey := git.SSHPrivateKey gitDriver;
                      git.InsecureIgnoreHostKey :=
                        git.InsecureIgnoreHostKey gitDriver |}
          | None => pure gitDriver
          end ;;
        gitDriver <-
          match GitArtifact.SSHPrivateKeySecret art_Git with
          | Some sshPrivateKeySecret =>
              '(sshPrivateKeyBytes, err) <-
                lift (getSecret ctx (Name sshPrivateKeySecret)
                                    (Key sshPrivateKeySecret)) ;;
              check err ;;
              pure {| git.Username := git.Username gitDriver;
                      git.Password := git.Password gitDriver;
                      git.SSHPrivateKey := sshPrivateKeyBytes;
                      git.InsecureIgnoreHostKey :=
                        git.InsecureIgnoreHostKey gitDriver |}
          | None => pure gitDriver
          end ;;
        Return (Some (GitDriver gitDriver), None)
    | None => skip
    end ;;
    match Artifactory art with
    | Some art_Artifactory =>
        '(usernameBytes, err) <-
          lift (getSecret ctx
                  (Name (ArtifactoryArtifact.UsernameSecret art_Artifactory))
                  (Key (ArtifactoryArtifact.UsernameSecret art_Artifactory))) ;;
        check err ;;
        '(passwordBytes, err) <-
          lift (getSecret ctx
                  (Name (ArtifactoryArtifact.PasswordSecret art_Artifactory))
                  (Key (ArtifactoryArtifact.PasswordSecret art_Artifactory))) ;;
        check err ;;
        let driver := {|
          artifactory.Username := usernameBytes;
          artifactory.Password := passwordBytes
        |} in
        Return (Some (ArtifactoryDriver driver), None)
    | None => skip
    end ;;
    match HDFS art with
    | Some art_HDFS =>
        r <- lift (CreateDriver ctx art_HDFS) ;;
        Return r
    | None => skip
    end ;;
    match Raw art with
    | Some _ => Return (Some (RawDriver raw.Build_RawArtifactDriver), None)
    | None => skip
    end ;;
    match OSS art with
    | Some art_OSS =>
        '(accessKey, secretKey) <-
          (if negb (Name (OSSArtifact.AccessKeySecret art_OSS) =? "") then
             '(accessKeyBytes, err) <-
               lift (getSecret ctx (Name (OSSArtifact.AccessKeySecret art_OSS))
                                   (Key (OSSArtifact.AccessKeySecret art_OSS))) ;;
             check err ;;
             '(secretKeyBytes, err) <-
               lift (getSecret ctx (Name (OSSArtifact.SecretKeySecret art_OSS))
                                   (Key (OSSArtifact.SecretKeySecret art_OSS))) ;;
             check err ;;
             pure (accessKeyBytes, secretKeyBytes)
           else pure ("", "")) ;;
        let driver := {|
          oss.Endpoint := OSSArtifact.Endpoint art_OSS;
          oss.AccessKey := accessKey;
          oss.SecretKey := secretKey
        |} in
        Return (Some (OSSDriver driver), None)
    | None => skip
    end ;;
    match GCS art with
    | Some art_GCS =>
        let driver := {| gcs.ServiceAccountKey := "" |} in
        driver <-
          (if negb (Name (GCSArtifact.ServiceAccountKeySecret art_GCS) =? "") then
             '(serviceAccountKeyBytes, err) <-
               lift (getSecret ctx
                       (Name (GCSArtifact.ServiceAccountKeySecret art_GCS))
                       (Key (GCSArtifact.ServiceAccountKeySecret art_GCS))) ;;
             check err ;;
             let serviceAccountKey := serviceAccountKeyBytes in
             pure {| gcs.ServiceAccountKey := serviceAccountKey |}
           else pure driver) ;;
        Return (Some (GCSDriver driver), None)
    | None => skip
    end ;;
    Return (None, Some ErrUnsupportedDriver)).


(** ** The dispatch order, in the words of the spec

    The variants are tested in the fixed order of [priority]; the first
    populated one is acted on, the others are ignored. *)
Definition priority : list Backend.t :=
  [Backend.S3; Backend.HTTP; Backend.Git; Backend.Artifactory;
   Backend.HDFS; Backend.Raw; Backend.OSS; Backend.GCS].

Definition is_some {A : Type} (o : option A) : bool :=
  match o with Some _ => true | None => false end.

Definition populated (art : Artifact) (b : Backend.t) : bool :=
  match b with
  | Backend.S3 => is_some (S3 art)
  | Backend.HTTP => is_some (HTTP art)
  | Backend.Git => is_some (Git art)
  | Backend.Artifactory => is_some (Artifactory art)
  | Backend.HDFS => is_some (HDFS art)
  | Backend.Raw => is_some (Raw art)
  | Backend.OSS => is_some (OSS art)
  | Backend.GCS => is_some (GCS art)
  end.

Definition first_populated (art : Artifact) : option Backend.t :=
  find (populated art) priority.

Definition keep {A : Type} (b b' : Backend.t) (o : option A) : option A :=
  if Backend.eqb b b' then o else None.

(** The descriptor in which only variant [b] of [art] is left. *)
Definition only (b : Backend.t) (art : Artifact) : Artifact := {|
  S3 := keep b Backend.S3 (S3 art);
  HTTP := keep b Backend.HTTP (HTTP art);
  Git := keep b Backend.Git (Git art);
  Artifactory := keep b Backend.Artifactory (Artifactory art);
  HDFS := keep b Backend.HDFS (HDFS art);
  Raw := keep b Backend.Raw (Raw art);
  OSS := keep b Backend.OSS (OSS art);
  GCS := keep b Backend.GCS (GCS art)
|}.

(** The concrete kind of a driver. *)
Definition driverBackend (d : ArtifactDriver) : Backend.t :=
  match d with
  | S3Driver _ => Backend.S3
  | HTTPDriver _ => Backend.HTTP
  | GitDriver _ => Backend.Git
  | ArtifactoryDriver _ => Backend.Artifactory
  | HDFSDriver _ => Backend.HDFS
  | RawDriver _ => Backend.Raw
  | OSSDriver _ => Backend.OSS
  | GCSDriver _ => Backend.GCS
  end.

(** ** Running a program against a resolver

    The resolver is any function of the context, the name, the key and its
    own state [W] (the secret store, the network, a clock); a run records
    every call together with the pair the resolver answered. *)
Section Run.

Variable W : Type.

Definition Resolver : Type :=
  Ctx -> string -> string -> W -> (string * option error) * W.

Variable ri : Resolver.

Record Event : Type := {
  ev_ctx : Ctx;
  ev_name : string;
  ev_key : string;
  ev_answer : string * option error
}.

Record Outcome (A : Type) : Type := {
  value : A;
  world : W;
  trace : list Event
}.

Fixpoint run {A : Type} (p : Prog A) (w : W) : Outcome A :=
  match p with
  | Ret a => {| value := a; world := w; trace := [] |}
  | GetSecret ctx name key k =>
      let '(r, w1) := ri ctx name key w in
      let o := run (k r) w1 in
      {| value := value o;
         world := world o;
         trace := {| ev_ctx := ctx; ev_name := name; ev_key := key;
                     ev_answer := r |} :: trace o |}
  end.

(** The calls of a run, in order. *)
Definition calls {A : Type} (o : Outcome A) : list Call :=
  map (fun ev => (ev_name ev, ev_key ev)) (trace o).

(** The state of the resolver after it has answered the calls of a trace. *)
Definition replay (evs : list Event) (w : W) : W :=
  fold_left (fun w ev => snd (ri (ev_ctx ev) (ev_name ev) (ev_key ev) w)) evs w.

(** The call that resolves a secret reference. *)
Definition call_of (ref : SecretKeySelector) : Call := (Name ref, Key ref).

Definition failed (ev : Event) : option error := snd (ev_answer ev).
Definition plaintext (ev : Event) : string := fst (ev_answer ev).

End Run.

(** Every result a program can return satisfies [P]. *)
Fixpoint always {A : Type} (P : A -> Prop) (p : Prog A) : Prop :=
  match p with
  | Ret a => P a
  | GetSecret _ _ _ k => forall r, always P (k r)
  end.


(** ** Equivalence of programs

    Two programs are equivalent when they make the same calls and return
    the same results whatever the resolver answers. *)
Inductive eqp {A : Type} : Prog A -> Prog A -> Prop :=
| eqp_Ret (a : A) : eqp (Ret a) (Ret a)
| eqp_GetSecret (ctx : Ctx) (name key : string)
    (f g : string * option error -> Prog A) :
    (forall r, eqp (f r) (g r)) ->
    eqp (GetSecret ctx name key f) (GetSecret ctx name key g).

(** The kind of driver that the dispatch on [art] may return; the HDFS
    constructor is external and answers for its own drivers. *)
Definition kind_matches (art : Artifact) (r : Result) : Prop :=
  forall d, fst r = Some d ->
    match first_populated art with
    | Some Backend.HDFS => True
    | Some b => driverBackend d = b
    | None => False
    end.

(** The position of a backend in the dispatch order. *)
Definition rank (b : Backend.t) : nat :=
  match b with
  | Backend.S3 => 0
  | Backend.HTTP => 1
  | Backend.Git => 2
  | Backend.Artifactory => 3
  | Backend.HDFS => 4
  | Backend.Raw => 5
  | Backend.OSS => 6
  | Backend.GCS => 7
  end.

(** ** Credential pairs: S3, OSS, Artifactory *)

(** The run [o] resolved [first] and then [second], once each: a failure
    of either resolution ends the run with that error and a nil driver (the
    second reference is then not resolved after a failure of the first);
    two successes end it with the driver made of the two plaintexts. *)
Definition pair_resolution (W : Type) (ctx : Ctx)
           (first second : SecretKeySelector)
           (mk : string -> string -> ArtifactDriver)
           (o : Outcome W Result) : Prop :=
  exists ev1 rest,
    trace o = ev1 :: rest /\
    ev_ctx ev1 = ctx /\
    (ev_name ev1, ev_key ev1) = call_of first /\
    match failed ev1 with
    | Some e => rest = [] /\ value o = (None, Some e)
    | None =>
        exists ev2,
          rest = [ev2] /\
          ev_ctx ev2 = ctx /\
          (ev_name ev2, ev_key ev2) = call_of second /\
          match failed ev2 with
          | Some e => value o = (None, Some e)
          | None => value o = (Some (mk (plaintext ev1) (plaintext ev2)), None)
          end
    end.

Definition mkS3Driver (art_S3 : S3Artifact.t) (accessKey secretKey : string)
  : ArtifactDriver :=
  S3Driver {|
    s3.Endpoint := S3Artifact.Endpoint art_S3;
    s3.AccessKey := accessKey;
    s3.SecretKey := secretKey;
    s3.Secure := match S3Artifact.Insecure art_S3 with
                 | None => true
                 | Some insecure => negb insecure
                 end;
    s3.Region := S3Artifact.Region art_S3;
    s3.RoleARN := S3Artifact.RoleARN art_S3;
    s3.UseSDKCreds := S3Artifact.UseSDKCreds art_S3
  |}.

Definition mkOSSDriver (art_OSS : OSSArtifact.t) (accessKey secretKey : string)
  : ArtifactDriver :=
  OSSDriver {|
    oss.Endpoint := OSSArtifact.Endpoint art_OSS;
    oss.AccessKey := accessKey;
    oss.SecretKey := secretKey
  |}.

Definition mkArtifactoryDriver (username password : string) : ArtifactDriver :=
  ArtifactoryDriver {|
    artifactory.Username := username;
    artifactory.Password := password
  |}.

(** ** The Git backend *)

Definition opt_list {A : Type} (o : option A) : list A :=
  match o with Some a => [a] | None => [] end.

(** The secret references of a Git descriptor that are not nil, in the
    order in which [NewDriver] looks at them. *)
Definition git_refs (art_Git : GitArtifact.t) : list SecretKeySelector :=
  (opt_list (GitArtifact.UsernameSecret art_Git) ++
   opt_list (GitArtifact.PasswordSecret art_Git) ++
   opt_list (GitArtifact.SSHPrivateKeySecret art_Git))%list.

Definition succeeded (ev : Event) : bool := negb (is_some (failed ev)).

(** The credential [s] of the driver with respect to the reference [ref]:
    empty when the reference is nil, otherwise the plaintext that the
    resolver answered, without error, at position [pos] of the trace. *)
Definition resolved_as (ctx : Ctx) (ref : option SecretKeySelector)
           (pos : nat) (tr : list Event) (s : string) : Prop :=
  match ref with
  | None => s = ""
  | Some r =>
      exists ev,
        nth_error tr pos = Some ev /\
        ev_ctx ev = ctx /\
        (ev_name ev, ev_key ev) = call_of r /\
        ev_answer ev = (s, None)
  end.


(** ** Traces of a program, whatever the resolver answers

    [holds P p]: on every path of [p], that is for every sequence of
    answers of the resolver, the events of the path and the result satisfy
    [P]. *)
Fixpoint holds {A : Type} (P : list Event -> A -> Prop) (p : Prog A) : Prop :=
  match p with
  | Ret a => P [] a
  | GetSecret ctx name key k =>
      forall r,
        holds (fun evs a =>
                 P ({| ev_ctx := ctx; ev_name := name; ev_key := key;
                       ev_answer := r |} :: evs) a)
              (k r)
  end.

(** The secret references that the branch of the first populated variant
    resolves when no resolution fails, in the order of the code: the
    access-key and secret-key references of S3 and OSS under the guard on
    the access-key name, the references of Git that are not nil, the two
    references of Artifactory, the reference of GCS under the guard on its
    name.  (The HDFS constructor is external and resolves its own.) *)
Definition secret_refs (art : Artifact) : list SecretKeySelector :=
  match first_populated art with
  | Some Backend.S3 =>
      match S3 art with
      | Some art_S3 =>
          if negb (Name (S3Artifact.AccessKeySecret art_S3) =? "")
          then [S3Artifact.AccessKeySecret art_S3;
                S3Artifact.SecretKeySecret art_S3]
          else []
      | None => []
      end
  | Some Backend.Git =>
      match Git art with
      | Some art_Git => git_refs art_Git
      | None => []
      end
  | Some Backend.Artifactory =>
      match Artifactory art with
      | Some art_Artifactory =>
          [ArtifactoryArtifact.UsernameSecret art_Artifactory;
           ArtifactoryArtifact.PasswordSecret art_Artifactory]
      | None => []
      end
  | Some Backend.OSS =>
      match OSS art with
      | Some art_OSS =>
          if negb (Name (OSSArtifact.AccessKeySecret art_OSS) =? "")
          then [OSSArtifact.AccessKeySecret art_OSS;
                OSSArtifact.SecretKeySecret art_OSS]
          else []
      | None => []
      end
  | Some Backend.GCS =>
      match GCS art with
      | Some art_GCS =>
          if negb (Name (GCSArtifact.ServiceAccountKeySecret art_GCS) =? "")
          then [GCSArtifact.ServiceAccountKeySecret art_GCS]
          else []
      | None => []
      end
  | Some Backend.HTTP | Some Backend.HDFS | Some Backend.Raw | None => []
  end.

(** The credential fields of a driver built by [NewDriver]. *)
Definition credentials (d : ArtifactDriver) : list string :=
  match d with
  | S3Driver d => [s3.AccessKey d; s3.SecretKey d]
  | GitDriver d => [git.Username d; git.Password d; git.SSHPrivateKey d]
  | ArtifactoryDriver d => [artifactory.Username d; artifactory.Password d]
  | OSSDriver d => [oss.AccessKey d; oss.SecretKey d]
  | GCSDriver d => [gcs.ServiceAccountKey d]
  | HTTPDriver _ | RawDriver _ | HDFSDriver _ => []
  end.

End Factory.

Arguments Artifact {HTTPArtifact RawArtifact HDFSArtifact}.
Arguments ArtifactDriver {HDFSArtifactDriver}.
Arguments S3Driver {HDFSArtifactDriver} d.
Arguments HTTPDriver {HDFSArtifactDriver} d.
Arguments GitDriver {HDFSArtifactDriver} d.
Arguments ArtifactoryDriver {HDFSArtifactDriver} d.
Arguments HDFSDriver {HDFSArtifactDriver} d.
Arguments RawDriver {HDFSArtifactDriver} d.
Arguments OSSDriver {HDFSArtifactDriver} d.
Arguments GCSDriver {HDFSArtifactDriver} d.
Arguments Result {HDFSArtifactDriver}.
Arguments Prog {Ctx} A.
Arguments Ret {Ctx A} a.
Arguments GetSecret {Ctx A} ctx name key k.
Arguments Resolver {Ctx} W.
Arguments Event {Ctx}.
Arguments Outcome {Ctx} W A.
Arguments failed {Ctx} ev.
Arguments plaintext {Ctx} ev.
Arguments succeeded {Ctx} ev.
Arguments mkS3Driver {HDFSArtifactDriver} art_S3 accessKey secretKey.
Arguments mkOSSDriver {HDFSArtifactDriver} art_OSS accessKey secretKey.
Arguments mkArtifactoryDriver {HDFSArtifactDriver} username password.
Arguments credentials {HDFSArtifactDriver} d.

(** ** A small installation

    Concrete values for the parameters: no context, a URL for an HTTP
    location, inline data for a raw one, the reference of a keytab for an
    HDFS one, and an HDFS driver that holds the keytab. *)
Definition DemoArtifact : Type := @Artifact string string SecretKeySelector.
Definition DemoResult : Type := @Result string.

(** An HDFS constructor that resolves one secret, the keytab. *)
Definition demoCreateDriver (ctx : unit) (art_HDFS : SecretKeySelector)
  : @Prog unit DemoResult :=
  GetSecret ctx (Name art_HDFS) (Key art_HDFS)
            (fun r => match snd r with
                      | Some e => Ret (None, Some e)
                      | None => Ret (Some (HDFSDriver (fst r)), None)
                      end).

(** The secrets of the installation, by (name, key). *)
Definition secrets : list (Call * string) :=
  [ (("k", "id_rsa"), "PRIVATEKEY");
    (("aws", "access"), "AKIA");
    (("aws", "secret"), "s3cr3t");
    (("", "legacy"), "legacy-secret");
    (("git", "user"), "octocat");
    (("git", "password"), "hunter2");
    (("art", "user"), "deployer");
    (("art", "password"), "artpass");
    (("gcp", "sa.json"), "service-account");
    (("krb", "keytab"), "KEYTAB") ].

(** A resolver over [secrets]; its state counts the reads it has served,
    its answers do not depend on it. *)
Definition vault : @Resolver unit nat :=
  fun _ name key reads =>
    (match find (fun s => ((fst (fst s) =? name) && (snd (fst s) =? key))%bool)
                secrets with
     | Some s => (snd s, None)
     | None => ("", Some (ExternalError "secret not found"))
     end,
     S reads).

Definition ref (name key : string) : SecretKeySelector :=
  {| Name := name; Key := key |}.

Definition demoS3 (access secret : SecretKeySelector) : S3Artifact.t := {|
  S3Artifact.Endpoint := "store.example";
  S3Artifact.Region := "";
  S3Artifact.Insecure := None;
  S3Artifact.AccessKeySecret := access;
  S3Artifact.SecretKeySecret := secret;
  S3Artifact.RoleARN := "";
  S3Artifact.UseSDKCreds := false
|}.

Definition demoOSS (access secret : SecretKeySelector) : OSSArtifact.t := {|
  OSSArtifact.Endpoint := "oss.example";
  OSSArtifact.AccessKeySecret := access;
  OSSArtifact.SecretKeySecret := secret
|}.

Definition demoGit (username password sshPrivateKey : option SecretKeySelector)
  : GitArtifact.t := {|
  GitArtifact.InsecureIgnoreHostKey := true;
  GitArtifact.UsernameSecret := username;
  GitArtifact.PasswordSecret := password;
  GitArtifact.SSHPrivateKeySecret := sshPrivateKey
|}.

Definition demoArtifactory (username password : SecretKeySelector)
  : ArtifactoryArtifact.t := {|
  ArtifactoryArtifact.UsernameSecret := username;
  ArtifactoryArtifact.PasswordSecret := password
|}.

Definition demoGCS (key : SecretKeySelector) : GCSArtifact.t :=
  {| GCSArtifact.ServiceAccountKeySecret := key |}.

(** The descriptor without any variant. *)
Definition noArtifact : DemoArtifact := {|
  S3 := None; HTTP := None; Git := None; Artifactory := None;
  HDFS := None; Raw := None; OSS := None; GCS := None
|}.

Definition withS3 (v : S3Artifact.t) (art : DemoArtifact) : DemoArtifact := {|
  S3 := Some v; HTTP := HTTP art; Git := Git art;
  Artifactory := Artifactory art; HDFS := HDFS art; Raw := Raw art;
  OSS := OSS art; GCS := GCS art
|}.

Definition withHTTP (v : string) (art : DemoArtifact) : DemoArtifact := {|
  S3 := S3 art; HTTP := Some v; Git := Git art;
  Artifactory := Artifactory art; HDFS := HDFS art; Raw := Raw art;
  OSS := OSS art; GCS := GCS art
|}.

Definition withGit (v : GitArtifact.t) (art : DemoArtifact) : DemoArtifact := {|
  S3 := S3 art; HTTP := HTTP art; Git := Some v;
  Artifactory := Artifactory art; HDFS := HDFS art; Raw := Raw art;
  OSS := OSS art; GCS := GCS art
|}.

Definition withArtifactory (v : ArtifactoryArtifact.t) (art : DemoArtifact)
  : DemoArtifact := {|
  S3 := S3 art; HTTP := HTTP art; Git := Git art;
  Artifactory := Some v; HDFS := HDFS art; Raw := Raw art;
  OSS := OSS art; GCS := GCS art
|}.

Definition withHDFS (v : SecretKeySelector) (art : DemoArtifact) : DemoArtifact := {|
  S3 := S3 art; HTTP := HTTP art; Git := Git art;
  Artifactory := Artifactory art; HDFS := Some v; Raw := Raw art;
  OSS := OSS art; GCS := GCS art
|}.

Definition withRaw (v : string) (art : DemoArtifact) : DemoArtifact := {|
  S3 := S3 art; HTTP := HTTP art; Git := Git art;
  Artifactory := Artifactory art; HDFS := HDFS art; Raw := Some v;
  OSS := OSS art; GCS := GCS art
|}.

Definition withOSS (v : OSSArtifact.t) (art : DemoArtifact) : DemoArtifact := {|
  S3 := S3 art; HTTP := HTTP art; Git := Git art;
  Artifactory := Artifactory art; HDFS := HDFS art; Raw := Raw art;
  OSS := Some v; GCS := GCS art
|}.

Definition withGCS (v : GCSArtifact.t) (art : DemoArtifact) : DemoArtifact := {|
  S3 := S3 art; HTTP := HTTP art; Git := Git art;
  Artifactory := Artifactory art; HDFS := HDFS art; Raw := Raw art;
  OSS := OSS art; GCS := Some v
|}.

(** [NewDriver] of the installation, run against [vault] from a state in
    which nothing has been read. *)
Definition demo (art : DemoArtifact) : Outcome nat DemoResult :=
  run vault (NewDriver demoCreateDriver tt art) 0.

(** A secret store that is out of reach: every call fails. *)
Definition sealedVault : @Resolver unit nat :=
  fun _ _ _ reads => (("", Some (ExternalError "store unavailable")), S reads).

(** A secret store that answers every call, with the name and the key. *)
Definition openVault : @Resolver unit nat :=
  fun _ name key reads => ((name ++ "/" ++ key, None), S reads).

(** * Properties *)

Section Properties.

Variable Ctx : Type.
Variable HTTPArtifact : Type.
Variable RawArtifact : Type.
Variable HDFSArtifact : Type.
Variable HDFSArtifactDriver : Type.
Variable CreateDriver :
  Ctx -> HDFSArtifact -> @Prog Ctx (@Result HDFSArtifactDriver).

Abbreviation Artifact := (@Artifact HTTPArtifact RawArtifact HDFSArtifact).
Abbreviation ArtifactDriver := (@ArtifactDriver HDFSArtifactDriver).
Abbreviation Result := (@Result HDFSArtifactDriver).
Abbreviation Prog := (@Prog Ctx).
Abbreviation Resolver := (@Resolver Ctx).
Abbreviation Event := (@Event Ctx).
Abbreviation NewDriver := (NewDriver CreateDriver).

Lemma eqp_refl (A : Type) (p : Prog A) : eqp p p.
Proof.
  induction p as [a | ctx name key k IH]; constructor; exact IH.
Qed.

Lemma eqp_sym (A : Type) (p q : Prog A) : eqp p q -> eqp q p.
Proof.
  induction 1 as [a | ctx name key f g _ IH]; constructor; exact IH.
Qed.

Lemma eqp_trans (A : Type) (p q r : Prog A) : eqp p q -> eqp q r -> eqp p r.
Proof.
  intros Hpq; revert r.
  induction Hpq as [a | ctx name key f g _ IH]; intros r Hqr.
  - exact Hqr.
  - inversion Hqr as [| ctx' name' key' g' h Hgh]; subst.
    constructor; intros x; apply IH.
    match goal with
    | H : GetSecret _ _ _ _ = GetSecret _ _ _ _ |- _ =>
        injection H as ->
    | _ => idtac
    end.
    apply Hgh.
Qed.

Lemma eqp_bind (A B : Type) (p q : Prog A) (f g : A -> Prog B) :
  eqp p q -> (forall a, eqp (f a) (g a)) -> eqp (bind p f) (bind q g).
Proof.
  intros Hpq Hfg.
  induction Hpq as [a | ctx name key h k _ IH]; cbn.
  - apply Hfg.
  - constructor; exact IH.
Qed.

Lemma eqp_bind_assoc (A B C : Type) (p : Prog A) (f : A -> Prog B)
      (g : B -> Prog C) :
  eqp (bind (bind p f) g) (bind p (fun a => bind (f a) g)).
Proof.
  induction p as [a | ctx name key k IH]; cbn.
  - apply eqp_refl.
  - constructor; exact IH.
Qed.

Lemma eqp_bind_ret (A : Type) (p : Prog A) (f : A -> Prog A) :
  (forall a, eqp (f a) (Ret a)) -> eqp (bind p f) p.
Proof.
  intros Hf.
  induction p as [a | ctx name key k IH]; cbn.
  - apply Hf.
  - constructor; exact IH.
Qed.

(** Equivalent programs have the same runs. *)
Lemma eqp_run (A W : Type) (ri : Resolver W) (p q : Prog A) :
  eqp p q -> forall w, run ri p w = run ri q w.
Proof.
  induction 1 as [a | ctx name key f g _ IH]; intros w; cbn.
  - reflexivity.
  - destruct (ri ctx name key w) as [r w1]. rewrite IH. reflexivity.
Qed.

Lemma always_run (A W : Type) (ri : Resolver W) (P : A -> Prop) (p : Prog A) :
  always P p -> forall w, P (value (run ri p w)).
Proof.
  induction p as [a | ctx name key k IH]; cbn; intros H w.
  - exact H.
  - destruct (ri ctx name key w) as [r w1]. cbn. apply IH, H.
Qed.

Lemma always_bind (A B : Type) (P : B -> Prop) (p : Prog A) (f : A -> Prog B) :
  (forall a, always P (f a)) -> always P (bind p f).
Proof.
  intros Hf.
  induction p as [a | ctx name key k IH]; cbn.
  - apply Hf.
  - exact IH.
Qed.

(** The resolver's state after a run is the state after its calls: a
    program changes nothing but through the resolver. *)
Lemma run_replay (A W : Type) (ri : Resolver W) (p : Prog A) (w : W) :
  world (run ri p w) = replay ri (trace (run ri p w)) w.
Proof.
  revert w.
  induction p as [a | ctx name key k IH]; intros w; cbn.
  - reflexivity.
  - destruct (ri ctx name key w) as [r w1] eqn:E. cbn.
    rewrite E. cbn. apply IH.
Qed.

(** Against a resolver whose answers do not depend on its state, the
    result and the calls of a run do not depend on the state either. *)
Lemma run_deterministic (A W : Type) (ri : Resolver W) (p : Prog A) :
  (forall ctx name key w w', fst (ri ctx name key w) = fst (ri ctx name key w')) ->
  forall w w',
    value (run ri p w) = value (run ri p w') /\
    trace (run ri p w) = trace (run ri p w').
Proof.
  intros Hdet.
  induction p as [a | ctx name key k IH]; intros w w'; cbn.
  - split; reflexivity.
  - specialize (Hdet ctx name key w w').
    destruct (ri ctx name key w) as [r w1].
    destruct (ri ctx name key w') as [r' w1']. cbn in *. subst r'.
    destruct (IH r w1 w1') as [Hv Ht]. rewrite Hv, Ht. split; reflexivity.
Qed.


(** ** The unsupported descriptor *)

Lemma error_eqb_eq (a b : error) : error_eqb a b = true <-> a = b.
Proof.
  destruct a as [| m], b as [| n]; cbn; split; intros H;
    try reflexivity; try discriminate.
  - apply String.eqb_eq in H. subst. reflexivity.
  - injection H as ->. apply String.eqb_refl.
Qed.

(** C2: when no backend variant of the descriptor is populated, NewDriver
    returns a nil driver together with the sentinel ErrUnsupportedDriver,
    which is told from every other error by comparing it; the result is not
    a nil driver with a nil error, and the resolver is never called. *)
Theorem NewDriver_unsupported (ctx : Ctx) (art : Artifact) :
  (forall b, populated art b = false) ->
  eqp (NewDriver ctx art) (Ret (None, Some ErrUnsupportedDriver)) /\
  (forall (W : Type) (ri : Resolver W) (w : W),
      let o := run ri (NewDriver ctx art) w in
      value o = (None, Some ErrUnsupportedDriver) /\
      value o <> (None, None) /\
      trace o = [] /\
      world o = w) /\
  (forall e, error_eqb e ErrUnsupportedDriver = true <-> e = ErrUnsupportedDriver).
Proof.
  intros Hnone.
  assert (Heq : NewDriver ctx art = Ret (None, Some ErrUnsupportedDriver)).
  { pose proof (Hnone Backend.S3) as H1. pose proof (Hnone Backend.HTTP) as H2.
    pose proof (Hnone Backend.Git) as H3.
    pose proof (Hnone Backend.Artifactory) as H4.
    pose proof (Hnone Backend.HDFS) as H5. pose proof (Hnone Backend.Raw) as H6.
    pose proof (Hnone Backend.OSS) as H7. pose proof (Hnone Backend.GCS) as H8.
    destruct art as [[s|] [h|] [g|] [a|] [hd|] [r|] [o|] [gc|]];
      cbn in *; try discriminate.
    reflexivity. }
  rewrite Heq. split; [apply eqp_refl |]. split.
  - intros W ri w. cbn. repeat split. discriminate.
  - intros e. apply error_eqb_eq.
Qed.

(** ** The S3 backend without credentials *)

(** C3: when the S3 variant is populated and the name of its access-key
    secret reference is empty, NewDriver never calls the resolver and
    returns an S3 driver with empty AccessKey and SecretKey, with Endpoint,
    Region, RoleARN and UseSDKCreds taken verbatim from the descriptor, and
    with Secure true exactly when Insecure is nil or false. *)
Theorem NewDriver_S3_without_credentials
        (ctx : Ctx) (art : Artifact) (art_S3 : S3Artifact.t) :
  S3 art = Some art_S3 ->
  Name (S3Artifact.AccessKeySecret art_S3) = "" ->
  exists d : s3.S3ArtifactDriver,
    eqp (NewDriver ctx art) (Ret (Some (S3Driver d), None)) /\
    (forall (W : Type) (ri : Resolver W) (w : W),
        let o := run ri (NewDriver ctx art) w in
        value o = (Some (S3Driver d), None) /\ trace o = [] /\ world o = w) /\
    s3.AccessKey d = "" /\
    s3.SecretKey d = "" /\
    s3.Endpoint d = S3Artifact.Endpoint art_S3 /\
    s3.Region d = S3Artifact.Region art_S3 /\
    s3.RoleARN d = S3Artifact.RoleARN art_S3 /\
    s3.UseSDKCreds d = S3Artifact.UseSDKCreds art_S3 /\
    (s3.Secure d = true <->
     S3Artifact.Insecure art_S3 = None \/ S3Artifact.Insecure art_S3 = Some false).
Proof.
  intros HS3 Hname.
  exists {| s3.Endpoint := S3Artifact.Endpoint art_S3;
            s3.AccessKey := "";
            s3.SecretKey := "";
            s3.Secure := match S3Artifact.Insecure art_S3 with
                         | None => true
                         | Some insecure => negb insecure
                         end;
            s3.Region := S3Artifact.Region art_S3;
            s3.RoleARN := S3Artifact.RoleARN art_S3;
            s3.UseSDKCreds := S3Artifact.UseSDKCreds art_S3 |}.
  match goal with
  | |- eqp _ (Ret ?r) /\ _ => assert (Heq : NewDriver ctx art = Ret r)
  end.
  { unfold NewDriver. rewrite HS3, Hname. cbn. reflexivity. }
  rewrite Heq. split; [apply eqp_refl |].
  split; [intros W ri w; cbn; repeat split |].
  cbn. repeat split.
  - destruct (S3Artifact.Insecure art_S3) as [[|]|]; cbn; intros H;
      [discriminate | right; reflexivity | left; reflexivity].
  - destruct (S3Artifact.Insecure art_S3) as [[|]|]; cbn; intros [H|H];
      try discriminate; reflexivity.
Qed.

(** ** The HDFS backend *)

Lemma NewDriver_HDFS_eqp (ctx : Ctx) (art : Artifact) (art_HDFS : HDFSArtifact) :
  S3 art = None -> HTTP art = None -> Git art = None -> Artifactory art = None ->
  HDFS art = Some art_HDFS ->
  eqp (NewDriver ctx art) (CreateDriver ctx art_HDFS).
Proof.
  intros H1 H2 H3 H4 H5.
  unfold NewDriver. rewrite H1, H2, H3, H4, H5. cbn.
  unfold call, seq, lift.
  repeat (eapply eqp_trans; [apply eqp_bind_assoc |]; cbn).
  apply eqp_bind_ret. intros a. apply eqp_refl.
Qed.

(** C8: when the HDFS variant is populated and the S3, HTTP, Git and
    Artifactory variants are not, NewDriver is the external constructor
    hdfs.CreateDriver applied to the same context, resolver and HDFS
    sub-configuration: the same calls of the resolver, the same result, and
    nothing added. *)
Theorem NewDriver_HDFS_delegates
        (ctx : Ctx) (art : Artifact) (art_HDFS : HDFSArtifact) :
  S3 art = None -> HTTP art = None -> Git art = None -> Artifactory art = None ->
  HDFS art = Some art_HDFS ->
  eqp (NewDriver ctx art) (CreateDriver ctx art_HDFS) /\
  (forall (W : Type) (ri : Resolver W) (w : W),
      run ri (NewDriver ctx art) w = run ri (CreateDriver ctx art_HDFS) w).
Proof.
  intros H1 H2 H3 H4 H5.
  pose proof (NewDriver_HDFS_eqp ctx art H1 H2 H3 H4 H5) as Heq.
  split; [exact Heq |].
  intros W ri w. apply eqp_run, Heq.
Qed.


(** ** Dispatch *)

Ltac eqp_step :=
  first
    [ apply eqp_Ret
    | apply eqp_GetSecret; intros [? [?|]]; cbn
    | match goal with
      | |- context [if negb (?x =? "") then _ else _] =>
          destruct (x =? ""); cbn
      | |- context [match ?o with Some _ => _ | None => _ end] =>
          destruct o; cbn
      end ].

Ltac eqp_auto := cbn; repeat eqp_step.

Lemma NewDriver_first_populated (ctx : Ctx) (art : Artifact) :
  eqp (NewDriver ctx art)
      match first_populated art with
      | Some b => NewDriver ctx (only b art)
      | None => Ret (None, Some ErrUnsupportedDriver)
      end.
Proof.
  destruct art as [s h g a hd r o gc].
  destruct s as [s|]; [unfold first_populated, NewDriver; eqp_auto |].
  destruct h as [h|]; [apply eqp_refl |].
  destruct g as [g|]; [unfold first_populated, NewDriver; eqp_auto |].
  destruct a as [a|]; [unfold first_populated, NewDriver; eqp_auto |].
  destruct hd as [hd|].
  { match goal with
    | |- eqp (NewDriver ctx ?x) _ =>
        change (eqp (NewDriver ctx x) (NewDriver ctx (only Backend.HDFS x)))
    end.
    eapply eqp_trans; [apply NewDriver_HDFS_eqp with (art_HDFS := hd); reflexivity |].
    apply eqp_sym.
    apply NewDriver_HDFS_eqp with (art_HDFS := hd); reflexivity. }
  destruct r as [r|]; [apply eqp_refl |].
  destruct o as [o|]; [unfold first_populated, NewDriver; eqp_auto |].
  destruct gc as [gc|]; [unfold first_populated, NewDriver; eqp_auto |].
  apply eqp_refl.
Qed.

Ltac always_step :=
  first
    [ match goal with
      | |- forall r : string * option error, _ => intros [? [?|]]; cbn
      | |- context [if negb (?x =? "") then _ else _] =>
          destruct (x =? ""); cbn
      | |- context [match ?o with Some _ => _ | None => _ end] =>
          destruct o; cbn
      end ].

Lemma NewDriver_kind (ctx : Ctx) (art : Artifact) :
  always (kind_matches art) (NewDriver ctx art).
Proof.
  destruct art as [s h g a hd r o gc].
  destruct s as [s|].
  { unfold NewDriver; cbn; repeat always_step;
      intros d; cbn; intros H; inversion H; reflexivity. }
  destruct h as [h|].
  { intros d; cbn; intros H; inversion H; reflexivity. }
  destruct g as [g|].
  { unfold NewDriver; cbn; repeat always_step;
      intros d; cbn; intros H; inversion H; reflexivity. }
  destruct a as [a|].
  { unfold NewDriver; cbn; repeat always_step;
      intros d; cbn; intros H; inversion H; reflexivity. }
  destruct hd as [hd|].
  { unfold NewDriver, call. apply always_bind.
    intros [r0 | []]. intros d _. exact I. }
  destruct r as [r|].
  { intros d; cbn; intros H; inversion H; reflexivity. }
  destruct o as [o|].
  { unfold NewDriver; cbn; repeat always_step;
      intros d; cbn; intros H; inversion H; reflexivity. }
  destruct gc as [gc|].
  { unfold NewDriver; cbn; repeat always_step;
      intros d; cbn; intros H; inversion H; reflexivity. }
  intros d; cbn; intros H; discriminate.
Qed.


Lemma priority_by_rank : map rank priority = List.seq 0 8.
Proof. reflexivity. Qed.

(** [first_populated] is the populated variant before which, in the
    dispatch order, no variant is populated. *)
Lemma first_populated_spec (art : Artifact) (b : Backend.t) :
  first_populated art = Some b <->
  populated art b = true /\
  forall b', rank b' < rank b -> populated art b' = false.
Proof.
  destruct art as [s h g a hd r o gc]. unfold first_populated. split.
  - destruct s, h, g, a, hd, r, o, gc; cbn; intros H; inversion H; subst;
      (split; [reflexivity |]); intros b' Hlt; destruct b'; cbn in *;
      solve [reflexivity | lia].
  - intros [Hb Hmin].
    pose proof (Hmin Backend.S3) as H0. pose proof (Hmin Backend.HTTP) as H1.
    pose proof (Hmin Backend.Git) as H2.
    pose proof (Hmin Backend.Artifactory) as H3.
    pose proof (Hmin Backend.HDFS) as H4. pose proof (Hmin Backend.Raw) as H5.
    pose proof (Hmin Backend.OSS) as H6. clear Hmin.
    destruct b; cbn in *;
      repeat match goal with
             | H : ?n < ?m -> _ |- _ =>
                 first [ assert (Hlt : n < m) by lia; specialize (H Hlt); clear Hlt
                       | clear H ]
             end;
      destruct s, h, g, a, hd, r, o, gc; cbn in *;
      solve [reflexivity | discriminate].
Qed.

(** The answers of the resolver on the path of a run. *)
Ltac answer ri :=
  match goal with
  | |- context [ri ?c ?n ?k ?w] =>
      destruct (ri c n k w) as [[? [?|]] ?]; cbn
  end.

Ltac branch ri :=
  unfold NewDriver; cbn;
  repeat match goal with
         | g : GitArtifact.t |- _ => destruct g as [? [?|] [?|] [?|]]; cbn
         | |- context [if negb (?x =? "") then _ else _] =>
             destruct (x =? ""); cbn
         end;
  repeat answer ri.

(** The branch of the first populated variant [b] is the one that runs:
    it ends with a driver of the kind of [b], after calls of the resolver
    that all succeeded, or with the error of its last call, which failed. *)
Lemma NewDriver_constructs (ctx : Ctx) (art : Artifact) (b : Backend.t)
      (W : Type) (ri : Resolver W) (w : W) :
  first_populated art = Some b ->
  b <> Backend.HDFS ->
  (exists d,
      value (run ri (NewDriver ctx art) w) = (Some d, None) /\
      driverBackend d = b /\
      forallb succeeded (trace (run ri (NewDriver ctx art) w)) = true) \/
  (exists e,
      value (run ri (NewDriver ctx art) w) = (None, Some e) /\
      last (map failed (trace (run ri (NewDriver ctx art) w))) None = Some e).
Proof.
  intros Hb Hnot.
  destruct art as [s h g a hd r o gc]. unfold first_populated in Hb.
  destruct s as [s|];
    [| destruct h as [h|];
       [| destruct g as [g|];
          [| destruct a as [a|];
             [| destruct hd as [hd|];
                [| destruct r as [r|];
                   [| destruct o as [o|];
                      [| destruct gc as [gc|]]]]]]]];
    cbn in Hb; try discriminate Hb; injection Hb as <-;
    try (exfalso; apply Hnot; reflexivity).
  all: branch ri.
  all: first [ left; eexists; repeat split; reflexivity
             | right; eexists; split; reflexivity ].
Qed.

(** C1: NewDriver tests the variants in the order S3, HTTP, Git,
    Artifactory, HDFS, Raw, OSS, GCS and constructs the driver of the first
    populated one.  When that variant is not HDFS, every run ends with a
    driver of the kind of that variant, after calls of the resolver that
    all succeeded, or with the error of the call that failed; when it is
    HDFS, the run is the run of the HDFS constructor on the HDFS
    sub-configuration.  The other populated variants are ignored: NewDriver
    behaves on a descriptor as on the descriptor in which only the first
    populated variant is left, and without a populated variant it returns
    the sentinel. *)
Theorem NewDriver_priority_dispatch (ctx : Ctx) (art : Artifact) :
  priority = [Backend.S3; Backend.HTTP; Backend.Git; Backend.Artifactory;
              Backend.HDFS; Backend.Raw; Backend.OSS; Backend.GCS] /\
  (forall b, first_populated art = Some b <->
             populated art b = true /\
             forall b', rank b' < rank b -> populated art b' = false) /\
  (forall (W : Type) (ri : Resolver W) (w : W),
      run ri (NewDriver ctx art) w =
      run ri match first_populated art with
             | Some b => NewDriver ctx (only b art)
             | None => Ret (None, Some ErrUnsupportedDriver)
             end w) /\
  (forall (W : Type) (ri : Resolver W) (w : W) (d : ArtifactDriver),
      fst (value (run ri (NewDriver ctx art) w)) = Some d ->
      match first_populated art with
      | Some Backend.HDFS => True
      | Some b => driverBackend d = b
      | None => False
      end) /\
  (forall (b : Backend.t) (W : Type) (ri : Resolver W) (w : W),
      first_populated art = Some b ->
      b <> Backend.HDFS ->
      (exists d,
          value (run ri (NewDriver ctx art) w) = (Some d, None) /\
          driverBackend d = b /\
          forallb succeeded (trace (run ri (NewDriver ctx art) w)) = true) \/
      (exists e,
          value (run ri (NewDriver ctx art) w) = (None, Some e) /\
          last (map failed (trace (run ri (NewDriver ctx art) w))) None
          = Some e)) /\
  (forall (art_HDFS : HDFSArtifact) (W : Type) (ri : Resolver W) (w : W),
      first_populated art = Some Backend.HDFS ->
      HDFS art = Some art_HDFS ->
      run ri (NewDriver ctx art) w = run ri (CreateDriver ctx art_HDFS) w) /\
  (forall (W : Type) (ri : Resolver W) (w : W),
      first_populated art = None ->
      run ri (NewDriver ctx art) w
      = {| value := (None, Some ErrUnsupportedDriver);
           world := w; trace := [] |}).
Proof.
  split; [reflexivity |].
  split; [intros b; apply first_populated_spec |].
  split; [intros W ri w; apply eqp_run, NewDriver_first_populated |].
  split.
  { intros W ri w d.
    exact (always_run ri (kind_matches art) (NewDriver ctx art)
                      (NewDriver_kind ctx art) w d). }
  split; [intros b W ri w Hb Hnot; apply NewDriver_constructs; assumption |].
  split.
  - intros art_HDFS W ri w Hfirst HHDFS.
    apply eqp_run, NewDriver_HDFS_eqp; [| | | | exact HHDFS];
      destruct art as [s h g a hd r o gc]; unfold first_populated in Hfirst;
      cbn in *; destruct s, h, g, a; cbn in Hfirst;
      first [reflexivity | discriminate Hfirst].
  - intros W ri w Hnone.
    rewrite (eqp_run ri (NewDriver_first_populated ctx art) w).
    rewrite Hnone. reflexivity.
Qed.


Lemma eqb_empty_false (s : string) : s <> "" -> (s =? "") = false.
Proof. intros H. apply String.eqb_neq. exact H. Qed.

(** The fields of a descriptor dispatched to a given backend: the variants
    before it are nil. *)
Ltac dispatched H Hfield art :=
  let s := fresh "s" in let h := fresh "h" in let g := fresh "g" in
  let a := fresh "a" in let hd := fresh "hd" in let r := fresh "r" in
  let o := fresh "o" in let gc := fresh "gc" in
  destruct art as [s h g a hd r o gc];
  unfold first_populated in H; cbn in H, Hfield; subst;
  repeat match type of H with
         | context [is_some ?x] =>
             is_var x; destruct x; cbn in H; try discriminate H
         end;
  clear H.

Ltac resolve ri :=
  match goal with
  | |- context [ri ?c ?n ?k ?w] =>
      let p := fresh "plain" in let e := fresh "e" in let w1 := fresh "w" in
      let E := fresh "Eri" in
      destruct (ri c n k w) as [[p [e|]] w1] eqn:E; cbn
  end.

Lemma NewDriver_S3_pair (ctx : Ctx) (art : Artifact) (art_S3 : S3Artifact.t)
      (W : Type) (ri : Resolver W) (w : W) :
  S3 art = Some art_S3 ->
  Name (S3Artifact.AccessKeySecret art_S3) <> "" ->
  pair_resolution ctx (S3Artifact.AccessKeySecret art_S3)
                  (S3Artifact.SecretKeySecret art_S3)
                  (mkS3Driver art_S3) (run ri (NewDriver ctx art) w).
Proof.
  intros HS3 Hname. apply eqb_empty_false in Hname.
  unfold NewDriver, pair_resolution. rewrite HS3, Hname. cbn.
  resolve ri.
  - do 2 eexists. repeat split.
  - resolve ri.
    + do 2 eexists. repeat split. cbn. eexists. repeat split.
    + do 2 eexists. repeat split. cbn. eexists. repeat split.
Qed.

Lemma NewDriver_OSS_pair (ctx : Ctx) (art : Artifact) (art_OSS : OSSArtifact.t)
      (W : Type) (ri : Resolver W) (w : W) :
  first_populated art = Some Backend.OSS ->
  OSS art = Some art_OSS ->
  Name (OSSArtifact.AccessKeySecret art_OSS) <> "" ->
  pair_resolution ctx (OSSArtifact.AccessKeySecret art_OSS)
                  (OSSArtifact.SecretKeySecret art_OSS)
                  (mkOSSDriver art_OSS) (run ri (NewDriver ctx art) w).
Proof.
  intros Hfirst HOSS Hname. apply eqb_empty_false in Hname.
  dispatched Hfirst HOSS art.
  all: unfold NewDriver, pair_resolution; cbn; rewrite Hname; cbn.
  all: resolve ri; [do 2 eexists; repeat split |].
  all: resolve ri; do 2 eexists; repeat split; cbn; eexists; repeat split.
Qed.

(** C4 (amended): when the S3 variant is populated, or the OSS variant is
    the first populated one, with a non-empty access-key secret name,
    NewDriver resolves the access key first and the secret key second, once
    each; when either resolution fails it returns the error of the resolver
    as it is, with a nil driver. *)
Theorem NewDriver_access_then_secret
        (ctx : Ctx) (art : Artifact) (W : Type) (ri : Resolver W) (w : W) :
  (forall art_S3,
      S3 art = Some art_S3 ->
      Name (S3Artifact.AccessKeySecret art_S3) <> "" ->
      pair_resolution ctx (S3Artifact.AccessKeySecret art_S3)
                      (S3Artifact.SecretKeySecret art_S3)
                      (mkS3Driver art_S3) (run ri (NewDriver ctx art) w)) /\
  (forall art_OSS,
      first_populated art = Some Backend.OSS ->
      OSS art = Some art_OSS ->
      Name (OSSArtifact.AccessKeySecret art_OSS) <> "" ->
      pair_resolution ctx (OSSArtifact.AccessKeySecret art_OSS)
                      (OSSArtifact.SecretKeySecret art_OSS)
                      (mkOSSDriver art_OSS) (run ri (NewDriver ctx art) w)).
Proof.
  split.
  - intros art_S3. apply NewDriver_S3_pair.
  - intros art_OSS. apply NewDriver_OSS_pair.
Qed.

(** C6 (amended): when the Artifactory variant is the first populated one,
    NewDriver resolves the username secret, whatever its name and key (no
    test of an empty name), and, unless that fails, the password secret in
    the same way; a failure of either resolution ends the construction with
    that error and a nil driver. *)
Theorem NewDriver_Artifactory_always_resolves
        (ctx : Ctx) (art : Artifact) (art_Artifactory : ArtifactoryArtifact.t)
        (W : Type) (ri : Resolver W) (w : W) :
  first_populated art = Some Backend.Artifactory ->
  Artifactory art = Some art_Artifactory ->
  pair_resolution ctx (ArtifactoryArtifact.UsernameSecret art_Artifactory)
                  (ArtifactoryArtifact.PasswordSecret art_Artifactory)
                  mkArtifactoryDriver (run ri (NewDriver ctx art) w).
Proof.
  intros Hfirst Hart.
  dispatched Hfirst Hart art.
  all: unfold NewDriver, pair_resolution; cbn.
  all: resolve ri; [do 2 eexists; repeat split |].
  all: resolve ri; do 2 eexists; repeat split; cbn; eexists; repeat split.
Qed.


(** C10 (amended): when the S3 variant is populated, or the OSS variant is
    the first populated one, with a non-empty access-key secret name, and
    the access key has been resolved, the secret key is resolved with the
    name and key of its reference as they are, also when that name is
    empty; the result of the construction is then the answer of the
    resolver to that call: its error with a nil driver, or the driver with
    the two plaintexts. *)
Theorem NewDriver_secret_key_unconditional
        (ctx : Ctx) (art : Artifact) (W : Type) (ri : Resolver W) (w : W) :
  (forall art_S3 accessKey w1,
      S3 art = Some art_S3 ->
      Name (S3Artifact.AccessKeySecret art_S3) <> "" ->
      ri ctx (Name (S3Artifact.AccessKeySecret art_S3))
             (Key (S3Artifact.AccessKeySecret art_S3)) w
      = ((accessKey, None), w1) ->
      let o := run ri (NewDriver ctx art) w in
      let r2 := ri ctx (Name (S3Artifact.SecretKeySecret art_S3))
                       (Key (S3Artifact.SecretKeySecret art_S3)) w1 in
      calls o = [call_of (S3Artifact.AccessKeySecret art_S3);
                 call_of (S3Artifact.SecretKeySecret art_S3)] /\
      (Name (S3Artifact.SecretKeySecret art_S3) = "" ->
       nth_error (calls o) 1
       = Some ("", Key (S3Artifact.SecretKeySecret art_S3))) /\
      world o = snd r2 /\
      value o = match snd (fst r2) with
                | Some e => (None, Some e)
                | None => (Some (mkS3Driver art_S3 accessKey (fst (fst r2))), None)
                end) /\
  (forall art_OSS accessKey w1,
      first_populated art = Some Backend.OSS ->
      OSS art = Some art_OSS ->
      Name (OSSArtifact.AccessKeySecret art_OSS) <> "" ->
      ri ctx (Name (OSSArtifact.AccessKeySecret art_OSS))
             (Key (OSSArtifact.AccessKeySecret art_OSS)) w
      = ((accessKey, None), w1) ->
      let o := run ri (NewDriver ctx art) w in
      let r2 := ri ctx (Name (OSSArtifact.SecretKeySecret art_OSS))
                       (Key (OSSArtifact.SecretKeySecret art_OSS)) w1 in
      calls o = [call_of (OSSArtifact.AccessKeySecret art_OSS);
                 call_of (OSSArtifact.SecretKeySecret art_OSS)] /\
      (Name (OSSArtifact.SecretKeySecret art_OSS) = "" ->
       nth_error (calls o) 1
       = Some ("", Key (OSSArtifact.SecretKeySecret art_OSS))) /\
      world o = snd r2 /\
      value o = match snd (fst r2) with
                | Some e => (None, Some e)
                | None => (Some (mkOSSDriver art_OSS accessKey (fst (fst r2))), None)
                end).
Proof.
  split.
  - intros art_S3 accessKey w1 HS3 Hname Hfirst.
    apply eqb_empty_false in Hname.
    unfold NewDriver, calls. rewrite HS3, Hname. cbn. rewrite Hfirst. cbn.
    destruct (ri ctx (Name (S3Artifact.SecretKeySecret art_S3))
                 (Key (S3Artifact.SecretKeySecret art_S3)) w1)
      as [[secretKey [e|]] w2]; cbn;
      (split; [reflexivity |]); (split; [intros ->; reflexivity |]);
      split; reflexivity.
  - intros art_OSS accessKey w1 Hdisp HOSS Hname Hfirst.
    apply eqb_empty_false in Hname.
    dispatched Hdisp HOSS art.
    all: unfold NewDriver, calls; cbn; rewrite Hname; cbn; rewrite Hfirst; cbn.
    all: destruct (ri ctx (Name (OSSArtifact.SecretKeySecret art_OSS))
                      (Key (OSSArtifact.SecretKeySecret art_OSS)) w1)
        as [[secretKey [e|]] w2]; cbn;
        (split; [reflexivity |]); (split; [intros ->; reflexivity |]);
        split; reflexivity.
Qed.

(** ** The GCS backend *)

(** C7 (amended): when the GCS variant is the first populated one,
    NewDriver resolves the service-account-key secret if and only if the
    name of its reference is not empty.  With an empty name the resolver is
    never called and the driver has an empty ServiceAccountKey; otherwise
    the resolver is called once, its plaintext becomes the
    ServiceAccountKey of the driver, and its error is returned with a nil
    driver. *)
Theorem NewDriver_GCS_service_account_key
        (ctx : Ctx) (art : Artifact) (art_GCS : GCSArtifact.t)
        (W : Type) (ri : Resolver W) (w : W) :
  first_populated art = Some Backend.GCS ->
  GCS art = Some art_GCS ->
  let ref := GCSArtifact.ServiceAccountKeySecret art_GCS in
  let o := run ri (NewDriver ctx art) w in
  (Name ref = "" ->
   trace o = [] /\ world o = w /\
   value o = (Some (GCSDriver {| gcs.ServiceAccountKey := "" |}), None)) /\
  (Name ref <> "" ->
   exists ev,
     trace o = [ev] /\
     ev_ctx ev = ctx /\
     (ev_name ev, ev_key ev) = call_of ref /\
     ev_answer ev = fst (ri ctx (Name ref) (Key ref) w) /\
     world o = snd (ri ctx (Name ref) (Key ref) w) /\
     match failed ev with
     | Some e => value o = (None, Some e)
     | None =>
         value o
         = (Some (GCSDriver {| gcs.ServiceAccountKey := plaintext ev |}), None)
     end).
Proof.
  intros Hdisp HGCS.
  dispatched Hdisp HGCS art.
  cbn zeta. split.
  - intros Hname. unfold NewDriver. cbn. rewrite Hname. cbn.
    repeat split.
  - intros Hname. apply eqb_empty_false in Hname.
    unfold NewDriver. cbn. rewrite Hname. cbn.
    resolve ri; eexists; repeat split.
Qed.


Ltac finish := repeat first [reflexivity | split | eexists].

(** C5 (amended): when the Git variant is the first populated one, a
    credential is resolved only if its own secret reference is not nil,
    and the references that are not nil are resolved in the order username,
    password, SSH private key until one resolution fails; a failure ends
    the construction with that error and a nil driver.  Without a failure
    every reference that is not nil has been resolved, its plaintext is the
    credential of the driver, the credential of a nil reference is empty,
    and InsecureIgnoreHostKey is taken verbatim.  In particular, without
    any reference the driver has three empty credentials and the resolver
    is not called, and with only the SSH private-key reference, resolved
    without error, the driver has that key and an empty Username and
    Password. *)
Theorem NewDriver_Git_credentials
        (ctx : Ctx) (art : Artifact) (art_Git : GitArtifact.t)
        (W : Type) (ri : Resolver W) (w : W) :
  first_populated art = Some Backend.Git ->
  Git art = Some art_Git ->
  let o := run ri (NewDriver ctx art) w in
  let username := GitArtifact.UsernameSecret art_Git in
  let password := GitArtifact.PasswordSecret art_Git in
  let sshPrivateKey := GitArtifact.SSHPrivateKeySecret art_Git in
  (exists rest, map call_of (git_refs art_Git) = (calls o ++ rest)%list) /\
  ((exists d,
       value o = (Some (GitDriver d), None) /\
       calls o = map call_of (git_refs art_Git) /\
       forallb succeeded (trace o) = true /\
       resolved_as ctx username 0 (trace o) (git.Username d) /\
       resolved_as ctx password (List.length (opt_list username)) (trace o)
                   (git.Password d) /\
       resolved_as ctx sshPrivateKey
                   (List.length (opt_list username ++ opt_list password)%list) (trace o)
                   (git.SSHPrivateKey d) /\
       git.InsecureIgnoreHostKey d = GitArtifact.InsecureIgnoreHostKey art_Git)
   \/
   (exists e,
       value o = (None, Some e) /\
       last (map failed (trace o)) None = Some e /\
       forallb succeeded (removelast (trace o)) = true)) /\
  (username = None -> password = None -> sshPrivateKey = None ->
   trace o = [] /\
   value o = (Some (GitDriver {|
                git.Username := "";
                git.Password := "";
                git.SSHPrivateKey := "";
                git.InsecureIgnoreHostKey :=
                  GitArtifact.InsecureIgnoreHostKey art_Git |}), None)) /\
  (forall ref key w1,
      username = None -> password = None -> sshPrivateKey = Some ref ->
      ri ctx (Name ref) (Key ref) w = ((key, None), w1) ->
      calls o = [call_of ref] /\
      value o = (Some (GitDriver {|
                   git.Username := "";
                   git.Password := "";
                   git.SSHPrivateKey := key;
                   git.InsecureIgnoreHostKey :=
                     GitArtifact.InsecureIgnoreHostKey art_Git |}), None)).
Proof.
  intros Hdisp HGit.
  dispatched Hdisp HGit art.
  all: destruct art_Git as [flag [u|] [p|] [k|]]; unfold NewDriver, calls; cbn.
  all: repeat resolve ri.
  all: split; [eexists; cbn; reflexivity |].
  all: split; [first [ left; solve [finish] | right; solve [finish] ] |].
  all: split; [intros; try discriminate; split; reflexivity |].
  all: intros ref key w' Hu Hp Hk Hri; try discriminate.
  all: injection Hk as <-.
  all: rewrite Hri in Eri; inversion Eri; subst.
  all: split; reflexivity.
Qed.


End Properties.

(** * The properties on the small installation *)

(** C1 on a descriptor with three populated variants: Git comes first, the
    OSS and GCS variants are ignored, and the Git driver is constructed. *)
Lemma NewDriver_priority_dispatch_witness :
  let g := demoGit None None (Some (ref "k" "id_rsa")) in
  let art := withGCS (demoGCS (ref "gcp" "sa.json"))
               (withOSS (demoOSS (ref "aws" "access") (ref "aws" "secret"))
                  (withGit g noArtifact)) in
  first_populated art = Some Backend.Git /\
  Backend.Git <> Backend.HDFS /\
  demo art = demo (withGit g noArtifact) /\
  ((exists d,
       value (demo art) = (Some d, None) /\
       driverBackend d = Backend.Git /\
       forallb succeeded (trace (demo art)) = true) \/
   (exists e,
       value (demo art) = (None, Some e) /\
       last (map failed (trace (demo art))) None = Some e)).
Proof.
  cbv zeta.
  assert (Hnot : Backend.Git <> Backend.HDFS) by discriminate.
  split; [reflexivity |]. split; [exact Hnot |].
  destruct (NewDriver_priority_dispatch demoCreateDriver tt
              (withGCS (demoGCS (ref "gcp" "sa.json"))
                 (withOSS (demoOSS (ref "aws" "access") (ref "aws" "secret"))
                    (withGit (demoGit None None (Some (ref "k" "id_rsa")))
                       noArtifact))))
    as (_ & _ & Hsame & _ & Hbuilt & _ & _).
  split.
  - exact (Hsame nat vault 0).
  - exact (Hbuilt Backend.Git nat vault 0 eq_refl Hnot).
Defined.

(** C2 on the descriptor without any variant. *)
Lemma NewDriver_unsupported_witness :
  (forall b, populated noArtifact b = false) /\
  value (demo noArtifact) = (None, Some ErrUnsupportedDriver) /\
  value (demo noArtifact) <> (None, None) /\
  trace (demo noArtifact) = [] /\
  world (demo noArtifact) = 0.
Proof.
  assert (H : forall b, populated noArtifact b = false)
    by (intros []; reflexivity).
  split; [exact H |].
  exact (proj1 (proj2 (NewDriver_unsupported demoCreateDriver tt noArtifact H))
           nat vault 0).
Defined.

(** C3 on the S3 descriptor with the endpoint store.example and an empty
    access-key secret name. *)
Lemma NewDriver_S3_without_credentials_witness :
  let art_S3 := demoS3 (ref "" "") (ref "" "") in
  let art := withS3 art_S3 noArtifact in
  S3 art = Some art_S3 /\
  Name (S3Artifact.AccessKeySecret art_S3) = "" /\
  exists d : s3.S3ArtifactDriver,
    value (demo art) = (Some (S3Driver d), None) /\
    trace (demo art) = [] /\
    s3.Endpoint d = "store.example" /\
    s3.AccessKey d = "" /\
    s3.SecretKey d = "" /\
    s3.Secure d = true.
Proof.
  cbv zeta. split; [reflexivity |]. split; [reflexivity |].
  destruct (NewDriver_S3_without_credentials demoCreateDriver tt
              (withS3 (demoS3 (ref "" "") (ref "" "")) noArtifact)
              (art_S3 := demoS3 (ref "" "") (ref "" ""))
              eq_refl eq_refl)
    as (d & _ & Hrun & Hak & Hsk & Hend & _ & _ & _ & Hsec).
  exists d.
  destruct (Hrun nat vault 0) as (Hv & Ht & _).
  split; [exact Hv |]. split; [exact Ht |]. split; [exact Hend |].
  split; [exact Hak |]. split; [exact Hsk |].
  apply Hsec. left. reflexivity.
Defined.

(** C4 on an S3 descriptor and on a descriptor whose first populated
    variant is OSS, both with the access key aws/access. *)
Lemma NewDriver_access_then_secret_witness :
  let art_S3 := demoS3 (ref "aws" "access") (ref "aws" "secret") in
  let art_OSS := demoOSS (ref "aws" "access") (ref "aws" "secret") in
  pair_resolution tt (ref "aws" "access") (ref "aws" "secret")
                  (mkS3Driver art_S3)
                  (demo (withS3 art_S3 (withOSS art_OSS noArtifact))) /\
  pair_resolution tt (ref "aws" "access") (ref "aws" "secret")
                  (mkOSSDriver art_OSS)
                  (demo (withOSS art_OSS noArtifact)).
Proof.
  cbv zeta. split.
  - exact (proj1 (NewDriver_access_then_secret demoCreateDriver tt
                    (withS3 (demoS3 (ref "aws" "access") (ref "aws" "secret"))
                       (withOSS (demoOSS (ref "aws" "access") (ref "aws" "secret"))
                          noArtifact))
                    vault 0)
             (demoS3 (ref "aws" "access") (ref "aws" "secret"))
             eq_refl ltac:(discriminate)).
  - exact (proj2 (NewDriver_access_then_secret demoCreateDriver tt
                    (withOSS (demoOSS (ref "aws" "access") (ref "aws" "secret"))
                       noArtifact)
                    vault 0)
             (demoOSS (ref "aws" "access") (ref "aws" "secret"))
             eq_refl eq_refl ltac:(discriminate)).
Defined.

(** The claim C4 as it is stated fails on a descriptor with an S3 variant
    without credentials before the OSS variant: the OSS variant is
    populated with a non-empty access-key secret name, and no secret is
    resolved. *)
Lemma NewDriver_access_then_secret_counterexample :
  let art_OSS := demoOSS (ref "aws" "access") (ref "aws" "secret") in
  let art := withS3 (demoS3 (ref "" "") (ref "" "")) (withOSS art_OSS noArtifact) in
  OSS art = Some art_OSS /\
  Name (OSSArtifact.AccessKeySecret art_OSS) <> "" /\
  trace (demo art) = [] /\
  ~ pair_resolution tt (OSSArtifact.AccessKeySecret art_OSS)
      (OSSArtifact.SecretKeySecret art_OSS) (mkOSSDriver art_OSS) (demo art).
Proof.
  cbv zeta. split; [reflexivity |]. split; [discriminate |].
  split; [reflexivity |].
  intros (ev1 & rest & Htrace & _). discriminate Htrace.
Qed.

(** C5 on the Git descriptor with the SSH private-key reference k/id_rsa
    only, which the resolver answers with PRIVATEKEY. *)
Lemma NewDriver_Git_credentials_witness :
  let art_Git := demoGit None None (Some (ref "k" "id_rsa")) in
  let art := withGit art_Git noArtifact in
  first_populated art = Some Backend.Git /\
  Git art = Some art_Git /\
  calls (demo art) = [("k", "id_rsa")] /\
  value (demo art)
  = (Some (GitDriver {| git.Username := "";
                        git.Password := "";
                        git.SSHPrivateKey := "PRIVATEKEY";
                        git.InsecureIgnoreHostKey := true |}), None).
Proof.
  cbv zeta. split; [reflexivity |]. split; [reflexivity |].
  exact (proj2 (proj2 (proj2
           (NewDriver_Git_credentials demoCreateDriver tt
              (withGit (demoGit None None (Some (ref "k" "id_rsa"))) noArtifact)
              (art_Git := demoGit None None (Some (ref "k" "id_rsa")))
              vault 0 eq_refl eq_refl)))
           (ref "k" "id_rsa") "PRIVATEKEY" 1 eq_refl eq_refl eq_refl eq_refl).
Defined.

(** The claim C5 as it is stated fails twice: behind a populated HTTP
    variant the SSH private-key reference of the Git variant is not nil and
    is not resolved; and when the resolution of the username fails, the
    password reference is not nil and is not resolved. *)
Lemma NewDriver_Git_credentials_counterexample :
  let behind := demoGit None None (Some (ref "k" "id_rsa")) in
  let art1 := withHTTP "http://example/file" (withGit behind noArtifact) in
  let failing := demoGit (Some (ref "nobody" "user"))
                         (Some (ref "git" "password")) None in
  let art2 := withGit failing noArtifact in
  (Git art1 = Some behind /\
   GitArtifact.SSHPrivateKeySecret behind = Some (ref "k" "id_rsa") /\
   calls (demo art1) = [] /\
   value (demo art1) = (Some (HTTPDriver http.Build_HTTPArtifactDriver), None)) /\
  (Git art2 = Some failing /\
   first_populated art2 = Some Backend.Git /\
   GitArtifact.PasswordSecret failing = Some (ref "git" "password") /\
   ~ In (call_of (ref "git" "password")) (calls (demo art2)) /\
   value (demo art2) = (None, Some (ExternalError "secret not found"))).
Proof.
  cbv zeta. split.
  - repeat split.
  - split; [reflexivity |]. split; [reflexivity |]. split; [reflexivity |].
    split; [| reflexivity].
    cbn. intros [H | []]. discriminate H.
Qed.

(** C6 on an Artifactory descriptor whose username reference is the zero
    value: the resolver is called with the empty name and key. *)
Lemma NewDriver_Artifactory_always_resolves_witness :
  let art_Artifactory := demoArtifactory (ref "" "") (ref "art" "password") in
  let art := withArtifactory art_Artifactory noArtifact in
  first_populated art = Some Backend.Artifactory /\
  Artifactory art = Some art_Artifactory /\
  pair_resolution tt (ref "" "") (ref "art" "password")
                  mkArtifactoryDriver (demo art).
Proof.
  cbv zeta. split; [reflexivity |]. split; [reflexivity |].
  exact (NewDriver_Artifactory_always_resolves demoCreateDriver tt
           (withArtifactory (demoArtifactory (ref "" "") (ref "art" "password"))
              noArtifact)
           (art_Artifactory := demoArtifactory (ref "" "") (ref "art" "password"))
           vault 0 eq_refl eq_refl).
Defined.

(** The claim C6 as it is stated fails behind a populated Git variant,
    where no secret of the Artifactory variant is resolved; and after a
    failed resolution of the username the password is not resolved. *)
Lemma NewDriver_Artifactory_always_resolves_counterexample :
  let art_Artifactory := demoArtifactory (ref "art" "user") (ref "art" "password") in
  let art1 := withGit (demoGit None None None)
                (withArtifactory art_Artifactory noArtifact) in
  let missing := demoArtifactory (ref "" "") (ref "art" "password") in
  let art2 := withArtifactory missing noArtifact in
  (Artifactory art1 = Some art_Artifactory /\
   calls (demo art1) = [] /\
   ~ pair_resolution tt (ref "art" "user") (ref "art" "password")
       mkArtifactoryDriver (demo art1)) /\
  (Artifactory art2 = Some missing /\
   calls (demo art2) = [("", "")] /\
   ~ In (call_of (ref "art" "password")) (calls (demo art2))).
Proof.
  cbv zeta. split.
  - split; [reflexivity |]. split; [reflexivity |].
    intros (ev1 & rest & Htrace & _). discriminate Htrace.
  - split; [reflexivity |]. split; [reflexivity |].
    cbn. intros [H | []]. discriminate H.
Qed.

(** C7 on a GCS descriptor with the service-account key gcp/sa.json. *)
Lemma NewDriver_GCS_service_account_key_witness :
  let art_GCS := demoGCS (ref "gcp" "sa.json") in
  let art := withGCS art_GCS noArtifact in
  first_populated art = Some Backend.GCS /\
  GCS art = Some art_GCS /\
  Name (GCSArtifact.ServiceAccountKeySecret art_GCS) <> "" /\
  exists ev,
    trace (demo art) = [ev] /\
    (ev_name ev, ev_key ev) = ("gcp", "sa.json") /\
    match failed ev with
    | Some e => value (demo art) = (None, Some e)
    | None =>
        value (demo art)
        = (Some (GCSDriver {| gcs.ServiceAccountKey := plaintext ev |}), None)
    end.
Proof.
  cbv zeta. split; [reflexivity |]. split; [reflexivity |].
  assert (Hname : Name (GCSArtifact.ServiceAccountKeySecret
                          (demoGCS (ref "gcp" "sa.json"))) <> "")
    by discriminate.
  split; [exact Hname |].
  destruct (proj2 (NewDriver_GCS_service_account_key demoCreateDriver tt
                     (withGCS (demoGCS (ref "gcp" "sa.json")) noArtifact)
                     (art_GCS := demoGCS (ref "gcp" "sa.json"))
                     vault 0 eq_refl eq_refl) Hname)
    as (ev & Htrace & _ & Hcall & _ & _ & Hvalue).
  exists ev. split; [exact Htrace |]. split; [exact Hcall |]. exact Hvalue.
Defined.

(** The claim C7 as it is stated fails behind a populated Raw variant: the
    name of the service-account-key reference is not empty, the resolver is
    not called and the driver is the raw one. *)
Lemma NewDriver_GCS_service_account_key_counterexample :
  let art_GCS := demoGCS (ref "gcp" "sa.json") in
  let art := withRaw "inline data" (withGCS art_GCS noArtifact) in
  GCS art = Some art_GCS /\
  Name (GCSArtifact.ServiceAccountKeySecret art_GCS) <> "" /\
  calls (demo art) = [] /\
  value (demo art) = (Some (RawDriver raw.Build_RawArtifactDriver), None).
Proof.
  cbv zeta. split; [reflexivity |]. split; [discriminate |].
  split; reflexivity.
Qed.

(** C8 on a descriptor with the HDFS variant before the GCS variant. *)
Lemma NewDriver_HDFS_delegates_witness :
  let art := withHDFS (ref "krb" "keytab")
               (withGCS (demoGCS (ref "gcp" "sa.json")) noArtifact) in
  S3 art = None /\ HTTP art = None /\ Git art = None /\ Artifactory art = None /\
  HDFS art = Some (ref "krb" "keytab") /\
  demo art = run vault (demoCreateDriver tt (ref "krb" "keytab")) 0.
Proof.
  cbv zeta. repeat (split; [reflexivity |]).
  exact (proj2 (NewDriver_HDFS_delegates demoCreateDriver tt
                  (withHDFS (ref "krb" "keytab")
                     (withGCS (demoGCS (ref "gcp" "sa.json")) noArtifact))
                  (art_HDFS := ref "krb" "keytab")
                  eq_refl eq_refl eq_refl eq_refl eq_refl)
           nat vault 0).
Defined.


(** C10 on two S3 descriptors whose secret-key reference has an empty
    name: the resolver is called with the empty name, and the construction
    succeeds with the key legacy, which the vault holds under the empty
    name, and fails with the empty key, which it does not hold. *)
Lemma NewDriver_secret_key_unconditional_witness :
  let held := demoS3 (ref "aws" "access") (ref "" "legacy") in
  let missing := demoS3 (ref "aws" "access") (ref "" "") in
  (nth_error (calls (demo (withS3 held noArtifact))) 1 = Some ("", "legacy") /\
   value (demo (withS3 held noArtifact))
   = (Some (mkS3Driver held "AKIA" "legacy-secret"), None)) /\
  (nth_error (calls (demo (withS3 missing noArtifact))) 1 = Some ("", "") /\
   value (demo (withS3 missing noArtifact))
   = (None, Some (ExternalError "secret not found"))).
Proof.
  cbv zeta. split.
  - destruct (proj1 (NewDriver_secret_key_unconditional demoCreateDriver tt
                       (withS3 (demoS3 (ref "aws" "access") (ref "" "legacy"))
                          noArtifact)
                       vault 0)
                (demoS3 (ref "aws" "access") (ref "" "legacy")) "AKIA" 1
                eq_refl ltac:(discriminate) eq_refl)
      as (_ & Hcall & _ & Hvalue).
    split; [exact (Hcall eq_refl) | exact Hvalue].
  - destruct (proj1 (NewDriver_secret_key_unconditional demoCreateDriver tt
                       (withS3 (demoS3 (ref "aws" "access") (ref "" ""))
                          noArtifact)
                       vault 0)
                (demoS3 (ref "aws" "access") (ref "" "")) "AKIA" 1
                eq_refl ltac:(discriminate) eq_refl)
      as (_ & Hcall & _ & Hvalue).
    split; [exact (Hcall eq_refl) | exact Hvalue].
Defined.

(** The claim C10 as it is stated fails behind a populated HTTP variant:
    the OSS variant has a non-empty access-key secret name, which the vault
    would answer without error, and its secret key is never resolved. *)
Lemma NewDriver_secret_key_unconditional_counterexample :
  let art_OSS := demoOSS (ref "aws" "access") (ref "" "legacy") in
  let art := withHTTP "http://example/file" (withOSS art_OSS noArtifact) in
  OSS art = Some art_OSS /\
  Name (OSSArtifact.AccessKeySecret art_OSS) <> "" /\
  vault tt "aws" "access" 0 = (("AKIA", None), 1) /\
  ~ In (call_of (OSSArtifact.SecretKeySecret art_OSS)) (calls (demo art)) /\
  value (demo art) = (Some (HTTPDriver http.Build_HTTPArtifactDriver), None).
Proof.
  cbv zeta. split; [reflexivity |]. split; [discriminate |].
  split; [reflexivity |]. split; [| reflexivity].
  cbn. intros [].
Qed.

(** * Further properties of NewDriver

    Properties of every branch but the HDFS one, whose constructor is
    external: they are stated for the descriptors whose first populated
    variant is not HDFS. *)

Section MoreProperties.

Variable Ctx : Type.
Variable HTTPArtifact : Type.
Variable RawArtifact : Type.
Variable HDFSArtifact : Type.
Variable HDFSArtifactDriver : Type.
Variable CreateDriver :
  Ctx -> HDFSArtifact -> @Prog Ctx (@Result HDFSArtifactDriver).

Abbreviation Artifact := (@Artifact HTTPArtifact RawArtifact HDFSArtifact).
Abbreviation ArtifactDriver := (@ArtifactDriver HDFSArtifactDriver).
Abbreviation Result := (@Result HDFSArtifactDriver).
Abbreviation Prog := (@Prog Ctx).
Abbreviation Resolver := (@Resolver Ctx).
Abbreviation Event := (@Event Ctx).
Abbreviation NewDriver := (NewDriver CreateDriver).

(** What holds on every path of a program holds of every run of it. *)
Lemma holds_run (A : Type) (p : Prog A) :
  forall (P : list Event -> A -> Prop),
    holds P p ->
    forall (W : Type) (ri : Resolver W) (w : W),
      P (trace (run ri p w)) (value (run ri p w)).
Proof.
  induction p as [a | ctx name key k IH]; intros P H W ri w; cbn in *.
  - exact H.
  - destruct (ri ctx name key w) as [r w1]. cbn.
    exact (IH r _ (H r) W ri w1).
Qed.

(** The events of a run are calls that the resolver answered. *)
Lemma trace_answered (A W : Type) (ri : Resolver W) (p : Prog A) (w : W) :
  Forall (fun ev => exists w0,
              fst (ri (ev_ctx ev) (ev_name ev) (ev_key ev) w0) = ev_answer ev)
         (trace (run ri p w)).
Proof.
  revert w.
  induction p as [a | ctx name key k IH]; intros w; cbn.
  - constructor.
  - destruct (ri ctx name key w) as [r w1] eqn:E. cbn. constructor.
    + exists w. cbn. rewrite E. reflexivity.
    + apply IH.
Qed.

(** The eight cases of the dispatch, the HDFS one excluded by [Hnot]. *)
Ltac by_backend Hnot art :=
  let s := fresh "s" in let h := fresh "h" in let g := fresh "g" in
  let a := fresh "a" in let hd := fresh "hd" in let r := fresh "r" in
  let o := fresh "o" in let gc := fresh "gc" in
  destruct art as [s h g a hd r o gc];
  destruct s as [s|];
  [| destruct h as [h|];
     [| destruct g as [g|];
        [| destruct a as [a|];
           [| destruct hd as [hd|];
              [exfalso; apply Hnot; reflexivity
              | destruct r as [r|];
                [| destruct o as [o|];
                   [| destruct gc as [gc|]]]]]]]];
  clear Hnot.

(** The paths of a branch: the guards on names, the references of Git and
    the answers of the resolver. *)
Ltac path_step :=
  match goal with
  | g : GitArtifact.t |- _ => destruct g as [? [?|] [?|] [?|]]; cbn
  | |- forall r : string * option error, _ => intros [? [?|]]; cbn
  | |- context [if negb (?x =? "") then _ else _] =>
      destruct (x =? "") eqn:?; cbn
  end.

Ltac paths := unfold NewDriver, secret_refs, first_populated, calls; cbn;
              repeat path_step.

(** X1: NewDriver returns either a driver with a nil error or a nil driver
    with an error, never both and never neither. *)
Theorem NewDriver_driver_xor_error
        (ctx : Ctx) (art : Artifact) (W : Type) (ri : Resolver W) (w : W) :
  first_populated art <> Some Backend.HDFS ->
  (exists d, value (run ri (NewDriver ctx art) w) = (Some d, None)) \/
  (exists e, value (run ri (NewDriver ctx art) w) = (None, Some e)).
Proof.
  intros Hnot.
  apply (holds_run (NewDriver ctx art)
           (fun _ v => (exists d, v = (Some d, None)) \/
                       (exists e, v = (None, Some e)))).
  by_backend Hnot art; paths;
    first [left; eexists; reflexivity | right; eexists; reflexivity].
Qed.

(** X2: NewDriver stops at the first resolution that fails.  In every run
    all the calls of the resolver but the last succeeded; when the last one
    failed, its error is returned as it is with a nil driver; and a driver
    is returned only when every call succeeded. *)
Theorem NewDriver_fails_fast
        (ctx : Ctx) (art : Artifact) (W : Type) (ri : Resolver W) (w : W) :
  first_populated art <> Some Backend.HDFS ->
  forallb succeeded (removelast (trace (run ri (NewDriver ctx art) w))) = true /\
  (forall e,
      last (map failed (trace (run ri (NewDriver ctx art) w))) None = Some e ->
      value (run ri (NewDriver ctx art) w) = (None, Some e)) /\
  (forall d,
      fst (value (run ri (NewDriver ctx art) w)) = Some d ->
      forallb succeeded (trace (run ri (NewDriver ctx art) w)) = true).
Proof.
  intros Hnot.
  apply (holds_run (NewDriver ctx art)
           (fun tr v =>
              forallb succeeded (removelast tr) = true /\
              (forall e, last (map failed tr) None = Some e -> v = (None, Some e)) /\
              (forall d, fst v = Some d -> forallb succeeded tr = true))).
  by_backend Hnot art; paths;
    (split; [reflexivity |]); split; intros x Hx;
    first [discriminate Hx | reflexivity | injection Hx as ->; reflexivity].
Qed.

(** X3: NewDriver fails for two reasons only.  A returned error is the
    sentinel of a descriptor without any populated variant, after no call
    of the resolver, or it is the error of the last call of the resolver;
    and when a variant is populated and every call of the resolver
    succeeded, a driver is returned. *)
Theorem NewDriver_error_origin
        (ctx : Ctx) (art : Artifact) (W : Type) (ri : Resolver W) (w : W) :
  first_populated art <> Some Backend.HDFS ->
  (forall e,
      value (run ri (NewDriver ctx art) w) = (None, Some e) ->
      (first_populated art = None /\ e = ErrUnsupportedDriver /\
       trace (run ri (NewDriver ctx art) w) = []) \/
      last (map failed (trace (run ri (NewDriver ctx art) w))) None = Some e) /\
  (first_populated art <> None ->
   forallb succeeded (trace (run ri (NewDriver ctx art) w)) = true ->
   exists d, value (run ri (NewDriver ctx art) w) = (Some d, None)).
Proof.
  intros Hnot.
  apply (holds_run (NewDriver ctx art)
           (fun tr v =>
              (forall e,
                  v = (None, Some e) ->
                  (first_populated art = None /\ e = ErrUnsupportedDriver /\
                   tr = []) \/
                  last (map failed tr) None = Some e) /\
              (first_populated art <> None ->
               forallb succeeded tr = true ->
               exists d, v = (Some d, None)))).
  by_backend Hnot art; paths; split.
  all: try (intros x Hx; first [discriminate Hx | injection Hx as <-];
            first [right; reflexivity | left; repeat split]).
  all: intros Hp Hs;
    first [discriminate Hs | eexists; reflexivity | exfalso; apply Hp; reflexivity].
Qed.




(** X7: when the OSS variant is the first populated one and the name of
    its access-key secret reference is empty, NewDriver never calls the
    resolver, whatever the secret-key reference is, and returns the OSS
    driver with the endpoint of the descriptor and empty keys. *)
Theorem NewDriver_OSS_without_credentials
        (ctx : Ctx) (art : Artifact) (art_OSS : OSSArtifact.t)
        (W : Type) (ri : Resolver W) (w : W) :
  first_populated art = Some Backend.OSS ->
  OSS art = Some art_OSS ->
  Name (OSSArtifact.AccessKeySecret art_OSS) = "" ->
  run ri (NewDriver ctx art) w
  = {| value := (Some (OSSDriver {|
                         oss.Endpoint := OSSArtifact.Endpoint art_OSS;
                         oss.AccessKey := "";
                         oss.SecretKey := "" |}), None);
       world := w;
       trace := [] |}.
Proof.
  intros Hfirst HOSS Hname.
  destruct art as [s h g a hd r o gc]. unfold first_populated in Hfirst.
  cbn in Hfirst, HOSS. subst o.
  destruct s; [discriminate Hfirst |]. destruct h; [discriminate Hfirst |].
  destruct g; [discriminate Hfirst |]. destruct a; [discriminate Hfirst |].
  destruct hd; [discriminate Hfirst |]. destruct r; [discriminate Hfirst |].
  unfold NewDriver. cbn. rewrite Hname. reflexivity.
Qed.

(** X8: the HTTP and the Raw backends need no secret and cannot fail: when
    one of them is the first populated variant, NewDriver returns its
    driver without calling the resolver, whatever the resolver is. *)
Theorem NewDriver_HTTP_Raw_without_resolver
        (ctx : Ctx) (art : Artifact) (W : Type) (ri : Resolver W) (w : W) :
  (first_populated art = Some Backend.HTTP ->
   run ri (NewDriver ctx art) w
   = {| value := (Some (HTTPDriver http.Build_HTTPArtifactDriver), None);
        world := w; trace := [] |}) /\
  (first_populated art = Some Backend.Raw ->
   run ri (NewDriver ctx art) w
   = {| value := (Some (RawDriver raw.Build_RawArtifactDriver), None);
        world := w; trace := [] |}).
Proof.
  destruct art as [s h g a hd r o gc]. unfold first_populated. split; intros H.
  - destruct s; [discriminate H |]. destruct h; [reflexivity |].
    exfalso. destruct g, a, hd, r, o, gc; discriminate H.
  - destruct s; [discriminate H |]. destruct h; [discriminate H |].
    destruct g; [discriminate H |]. destruct a; [discriminate H |].
    destruct hd; [discriminate H |]. destruct r; [reflexivity |].
    exfalso. destruct o, gc; discriminate H.
Qed.

(** X9: the configuration of an S3 driver does not depend on the
    resolver.  Whenever an S3 descriptor yields a driver, with or without
    credentials, it is an S3 driver with the Endpoint, Region, RoleARN and
    UseSDKCreds of the descriptor, Secure is false exactly when Insecure is
    set to true, and its two keys are either both left empty after no call
    or the plaintexts of the two calls of the run, in that order. *)
Theorem NewDriver_S3_configuration
        (ctx : Ctx) (art : Artifact) (art_S3 : S3Artifact.t)
        (W : Type) (ri : Resolver W) (w : W) (d : ArtifactDriver) :
  S3 art = Some art_S3 ->
  fst (value (run ri (NewDriver ctx art) w)) = Some d ->
  exists d' : s3.S3ArtifactDriver,
    d = S3Driver d' /\
    s3.Endpoint d' = S3Artifact.Endpoint art_S3 /\
    s3.Region d' = S3Artifact.Region art_S3 /\
    s3.RoleARN d' = S3Artifact.RoleARN art_S3 /\
    s3.UseSDKCreds d' = S3Artifact.UseSDKCreds art_S3 /\
    (s3.Secure d' = false <-> S3Artifact.Insecure art_S3 = Some true) /\
    ((trace (run ri (NewDriver ctx art) w) = [] /\
      s3.AccessKey d' = "" /\ s3.SecretKey d' = "") \/
     map plaintext (trace (run ri (NewDriver ctx art) w))
     = [s3.AccessKey d'; s3.SecretKey d']).
Proof.
  intros HS3. revert d.
  apply (holds_run (NewDriver ctx art)
           (fun tr v =>
              forall d, fst v = Some d ->
                exists d' : s3.S3ArtifactDriver,
                  d = S3Driver d' /\
                  s3.Endpoint d' = S3Artifact.Endpoint art_S3 /\
                  s3.Region d' = S3Artifact.Region art_S3 /\
                  s3.RoleARN d' = S3Artifact.RoleARN art_S3 /\
                  s3.UseSDKCreds d' = S3Artifact.UseSDKCreds art_S3 /\
                  (s3.Secure d' = false <->
                   S3Artifact.Insecure art_S3 = Some true) /\
                  ((tr = [] /\ s3.AccessKey d' = "" /\ s3.SecretKey d' = "") \/
                   map plaintext tr = [s3.AccessKey d'; s3.SecretKey d']))).
  unfold NewDriver. rewrite HS3. cbn.
  assert (Hsecure :
            (match S3Artifact.Insecure art_S3 with
             | None => true
             | Some insecure => negb insecure
             end = false <-> S3Artifact.Insecure art_S3 = Some true)).
  { destruct (S3Artifact.Insecure art_S3) as [[|]|]; cbn; split; intros H;
      first [reflexivity | discriminate H]. }
  repeat path_step; intros d Hd;
    first [discriminate Hd | injection Hd as <-];
    eexists; (split; [reflexivity |]); cbn;
    repeat (split; [first [reflexivity | exact Hsecure] |]);
    first [right; reflexivity | left; repeat split].
Qed.

(** X10: what can be built without the secret store.  Against a resolver
    that fails on every call, NewDriver makes at most one call, and it
    returns a driver exactly when some variant is populated and the
    dispatched branch has no secret reference to resolve. *)
Theorem NewDriver_without_secret_store
        (ctx : Ctx) (art : Artifact) (W : Type) (ri : Resolver W) (w : W) :
  first_populated art <> Some Backend.HDFS ->
  (forall c name key w0, snd (fst (ri c name key w0)) <> None) ->
  List.length (trace (run ri (NewDriver ctx art) w)) <= 1 /\
  ((exists d, value (run ri (NewDriver ctx art) w) = (Some d, None)) <->
   first_populated art <> None /\ secret_refs art = []).
Proof.
  intros Hnot Hfail.
  assert (Hall : Forall (fun ev => failed ev <> None)
                        (trace (run ri (NewDriver ctx art) w))).
  { eapply Forall_impl; [| apply trace_answered].
    intros ev [w0 Hev]. unfold failed. rewrite <- Hev. apply Hfail. }
  revert Hall.
  apply (holds_run (NewDriver ctx art)
           (fun tr v =>
              Forall (fun ev => failed ev <> None) tr ->
              List.length tr <= 1 /\
              ((exists d, v = (Some d, None)) <->
               first_populated art <> None /\ secret_refs art = []))).
  by_backend Hnot art; paths; intros Hall.
  all: repeat match goal with
              | H : Forall _ (_ :: _) |- _ => inversion H; clear H; subst
              end;
    cbn in *; try congruence.
  all: split; [cbn; lia |].
  all: split;
    [ intros [d Hd];
      first [discriminate Hd | split; [discriminate | reflexivity]]
    | intros [Hp Hr];
      first [discriminate Hr | eexists; reflexivity
            | exfalso; apply Hp; reflexivity] ].
Qed.

(** X11: with a secret store that answers every call without error,
    NewDriver fails on no descriptor with a populated variant: it resolves
    exactly the references of [secret_refs], in order, and returns a driver
    of the kind of the first populated variant. *)
Theorem NewDriver_with_working_secret_store
        (ctx : Ctx) (art : Artifact) (b : Backend.t)
        (W : Type) (ri : Resolver W) (w : W) :
  first_populated art = Some b ->
  b <> Backend.HDFS ->
  (forall c name key w0, snd (fst (ri c name key w0)) = None) ->
  exists d,
    value (run ri (NewDriver ctx art) w) = (Some d, None) /\
    driverBackend d = b /\
    calls (run ri (NewDriver ctx art) w) = map call_of (secret_refs art).
Proof.
  intros Hb Hnot' Hok.
  assert (Hnot : first_populated art <> Some Backend.HDFS)
    by (rewrite Hb; intros H; injection H as ->; apply Hnot'; reflexivity).
  clear Hnot'.
  assert (Hall : Forall (fun ev => failed ev = None)
                        (trace (run ri (NewDriver ctx art) w))).
  { eapply Forall_impl; [| apply trace_answered].
    intros ev [w0 Hev]. unfold failed. rewrite <- Hev. apply Hok. }
  revert Hall b Hb. unfold calls.
  apply (holds_run (NewDriver ctx art)
           (fun tr v =>
              Forall (fun ev => failed ev = None) tr ->
              forall b, first_populated art = Some b ->
              exists d,
                v = (Some d, None) /\
                driverBackend d = b /\
                map (fun ev => (ev_name ev, ev_key ev)) tr
                = map call_of (secret_refs art))).
  by_backend Hnot art; paths; intros Hall b Hb.
  all: repeat match goal with
              | H : Forall _ (_ :: _) |- _ => inversion H; clear H; subst
              end;
    cbn in *; try discriminate.
  all: injection Hb as <-; eexists; repeat split.
Qed.

(** X12: the OSS branch resolves its credentials as the S3 branch does.
    For an S3 descriptor and a descriptor dispatched to OSS with the same
    access-key and secret-key references, the two runs from the same state
    of the resolver make the same calls, leave the resolver in the same
    state, return the same error, and on success the two drivers hold the
    same keys. *)
Theorem NewDriver_OSS_like_S3
        (ctx : Ctx) (art_s art_o : Artifact)
        (art_S3 : S3Artifact.t) (art_OSS : OSSArtifact.t)
        (W : Type) (ri : Resolver W) (w : W) :
  S3 art_s = Some art_S3 ->
  first_populated art_o = Some Backend.OSS ->
  OSS art_o = Some art_OSS ->
  S3Artifact.AccessKeySecret art_S3 = OSSArtifact.AccessKeySecret art_OSS ->
  S3Artifact.SecretKeySecret art_S3 = OSSArtifact.SecretKeySecret art_OSS ->
  trace (run ri (NewDriver ctx art_s) w) = trace (run ri (NewDriver ctx art_o) w) /\
  world (run ri (NewDriver ctx art_s) w) = world (run ri (NewDriver ctx art_o) w) /\
  snd (value (run ri (NewDriver ctx art_s) w))
  = snd (value (run ri (NewDriver ctx art_o) w)) /\
  (snd (value (run ri (NewDriver ctx art_s) w)) = None ->
   exists d_s d_o,
     fst (value (run ri (NewDriver ctx art_s) w)) = Some (S3Driver d_s) /\
     fst (value (run ri (NewDriver ctx art_o) w)) = Some (OSSDriver d_o) /\
     oss.AccessKey d_o = s3.AccessKey d_s /\
     oss.SecretKey d_o = s3.SecretKey d_s).
Proof.
  intros HS3 Hfirst HOSS Hak Hsk.
  destruct art_o as [s h g a hd r o gc]. unfold first_populated in Hfirst.
  cbn in Hfirst, HOSS. subst o.
  destruct s; [discriminate Hfirst |]. destruct h; [discriminate Hfirst |].
  destruct g; [discriminate Hfirst |]. destruct a; [discriminate Hfirst |].
  destruct hd; [discriminate Hfirst |]. destruct r; [discriminate Hfirst |].
  clear Hfirst.
  unfold NewDriver. rewrite HS3. cbn. rewrite Hak, Hsk.
  destruct (Name (OSSArtifact.AccessKeySecret art_OSS) =? ""); cbn.
  - repeat split. intros _. do 2 eexists. repeat split.
  - destruct (ri ctx (Name (OSSArtifact.AccessKeySecret art_OSS))
                (Key (OSSArtifact.AccessKeySecret art_OSS)) w)
      as [[accessKey [e|]] w1]; cbn.
    + repeat split. intros H. discriminate H.
    + destruct (ri ctx (Name (OSSArtifact.SecretKeySecret art_OSS))
                  (Key (OSSArtifact.SecretKeySecret art_OSS)) w1)
        as [[secretKey [e|]] w2]; cbn.
      * repeat split. intros H. discriminate H.
      * repeat split. intros _. do 2 eexists. repeat split.
Qed.

End MoreProperties.

(** * The further properties on the small installation *)

(** X1 on a Git descriptor whose username is not in the vault. *)
Lemma NewDriver_driver_xor_error_witness :
  let art := withGit (demoGit (Some (ref "nobody" "user")) None None) noArtifact in
  first_populated art <> Some Backend.HDFS /\
  ((exists d, value (demo art) = (Some d, None)) \/
   (exists e, value (demo art) = (None, Some e))).
Proof.
  cbv zeta.
  assert (H : first_populated
                (withGit (demoGit (Some (ref "nobody" "user")) None None)
                   noArtifact) <> Some Backend.HDFS) by discriminate.
  split; [exact H |].
  exact (NewDriver_driver_xor_error demoCreateDriver tt _ vault 0 H).
Defined.

(** X2 on a Git descriptor whose username is in the vault and whose
    password is not: the second call fails and the SSH key is not
    resolved. *)
Lemma NewDriver_fails_fast_witness :
  let art := withGit (demoGit (Some (ref "git" "user"))
                              (Some (ref "nobody" "password"))
                              (Some (ref "k" "id_rsa"))) noArtifact in
  first_populated art <> Some Backend.HDFS /\
  forallb succeeded (removelast (trace (demo art))) = true /\
  (forall e, last (map failed (trace (demo art))) None = Some e ->
             value (demo art) = (None, Some e)) /\
  (forall d, fst (value (demo art)) = Some d ->
             forallb succeeded (trace (demo art)) = true).
Proof.
  cbv zeta.
  assert (H : first_populated
                (withGit (demoGit (Some (ref "git" "user"))
                                  (Some (ref "nobody" "password"))
                                  (Some (ref "k" "id_rsa"))) noArtifact)
              <> Some Backend.HDFS) by discriminate.
  split; [exact H |].
  exact (NewDriver_fails_fast demoCreateDriver tt _ vault 0 H).
Defined.

(** X3 on an Artifactory descriptor whose password is not in the vault. *)
Lemma NewDriver_error_origin_witness :
  let art := withArtifactory
               (demoArtifactory (ref "art" "user") (ref "art" "token"))
               noArtifact in
  first_populated art <> Some Backend.HDFS /\
  (forall e,
      value (demo art) = (None, Some e) ->
      (first_populated art = None /\ e = ErrUnsupportedDriver /\
       trace (demo art) = []) \/
      last (map failed (trace (demo art))) None = Some e) /\
  (first_populated art <> None ->
   forallb succeeded (trace (demo art)) = true ->
   exists d, value (demo art) = (Some d, None)).
Proof.
  cbv zeta.
  assert (H : first_populated
                (withArtifactory
                   (demoArtifactory (ref "art" "user") (ref "art" "token"))
                   noArtifact) <> Some Backend.HDFS) by discriminate.
  split; [exact H |].
  exact (NewDriver_error_origin demoCreateDriver tt _ vault 0 H).
Defined.




(** X7 on an OSS descriptor with an empty access-key name and a
    secret-key reference that the vault holds. *)
Lemma NewDriver_OSS_without_credentials_witness :
  let art_OSS := demoOSS (ref "" "access") (ref "aws" "secret") in
  let art := withOSS art_OSS noArtifact in
  first_populated art = Some Backend.OSS /\
  OSS art = Some art_OSS /\
  Name (OSSArtifact.AccessKeySecret art_OSS) = "" /\
  demo art
  = {| value := (Some (OSSDriver {| oss.Endpoint := "oss.example";
                                    oss.AccessKey := "";
                                    oss.SecretKey := "" |}), None);
       world := 0;
       trace := [] |}.
Proof.
  cbv zeta. do 3 (split; [reflexivity |]).
  exact (NewDriver_OSS_without_credentials demoCreateDriver tt
           (withOSS (demoOSS (ref "" "access") (ref "aws" "secret")) noArtifact)
           (art_OSS := demoOSS (ref "" "access") (ref "aws" "secret"))
           vault 0 eq_refl eq_refl eq_refl).
Defined.

(** X8 on an HTTP descriptor, against the store that is out of reach. *)
Lemma NewDriver_HTTP_Raw_without_resolver_witness :
  let art := withHTTP "http://example/file"
               (withGCS (demoGCS (ref "gcp" "sa.json")) noArtifact) in
  first_populated art = Some Backend.HTTP /\
  run sealedVault (NewDriver demoCreateDriver tt art) 0
  = {| value := (Some (HTTPDriver http.Build_HTTPArtifactDriver), None);
       world := 0; trace := [] |}.
Proof.
  cbv zeta. split; [reflexivity |].
  exact (proj1 (NewDriver_HTTP_Raw_without_resolver demoCreateDriver tt
                  (withHTTP "http://example/file"
                     (withGCS (demoGCS (ref "gcp" "sa.json")) noArtifact))
                  sealedVault 0) eq_refl).
Defined.

(** X9 on an S3 descriptor with credentials. *)
Lemma NewDriver_S3_configuration_witness :
  let art_S3 := demoS3 (ref "aws" "access") (ref "aws" "secret") in
  let art := withS3 art_S3 noArtifact in
  let d := mkS3Driver art_S3 "AKIA" "s3cr3t" in
  S3 art = Some art_S3 /\
  fst (value (demo art)) = Some d /\
  exists d' : s3.S3ArtifactDriver,
    d = S3Driver d' /\
    s3.Endpoint d' = S3Artifact.Endpoint art_S3 /\
    s3.Region d' = S3Artifact.Region art_S3 /\
    s3.RoleARN d' = S3Artifact.RoleARN art_S3 /\
    s3.UseSDKCreds d' = S3Artifact.UseSDKCreds art_S3 /\
    (s3.Secure d' = false <-> S3Artifact.Insecure art_S3 = Some true) /\
    ((trace (demo art) = [] /\ s3.AccessKey d' = "" /\ s3.SecretKey d' = "") \/
     map plaintext (trace (demo art)) = [s3.AccessKey d'; s3.SecretKey d']).
Proof.
  cbv zeta. split; [reflexivity |]. split; [reflexivity |].
  exact (NewDriver_S3_configuration demoCreateDriver tt
           (withS3 (demoS3 (ref "aws" "access") (ref "aws" "secret")) noArtifact)
           (art_S3 := demoS3 (ref "aws" "access") (ref "aws" "secret"))
           vault 0 eq_refl eq_refl).
Defined.

(** X10 on a GCS descriptor with a service-account key, against the store
    that is out of reach: one call, no driver. *)
Lemma NewDriver_without_secret_store_witness :
  let art := withGCS (demoGCS (ref "gcp" "sa.json")) noArtifact in
  first_populated art <> Some Backend.HDFS /\
  (forall c name key w0, snd (fst (sealedVault c name key w0)) <> None) /\
  List.length (trace (run sealedVault (NewDriver demoCreateDriver tt art) 0)) <= 1 /\
  ((exists d, value (run sealedVault (NewDriver demoCreateDriver tt art) 0)
              = (Some d, None)) <->
   first_populated art <> None /\ secret_refs art = []).
Proof.
  cbv zeta.
  assert (H : first_populated (withGCS (demoGCS (ref "gcp" "sa.json")) noArtifact)
              <> Some Backend.HDFS) by discriminate.
  assert (Hfail : forall c name key w0,
             snd (fst (sealedVault c name key w0)) <> None)
    by (intros c name key w0; discriminate).
  split; [exact H |]. split; [exact Hfail |].
  exact (NewDriver_without_secret_store demoCreateDriver tt _ sealedVault 0
           H Hfail).
Defined.

(** X11 on an Artifactory descriptor, against the store that answers every
    call. *)
Lemma NewDriver_with_working_secret_store_witness :
  let art := withArtifactory
               (demoArtifactory (ref "art" "user") (ref "art" "token"))
               noArtifact in
  first_populated art = Some Backend.Artifactory /\
  Backend.Artifactory <> Backend.HDFS /\
  (forall c name key w0, snd (fst (openVault c name key w0)) = None) /\
  exists d,
    value (run openVault (NewDriver demoCreateDriver tt art) 0) = (Some d, None) /\
    driverBackend d = Backend.Artifactory /\
    calls (run openVault (NewDriver demoCreateDriver tt art) 0)
    = map call_of (secret_refs art).
Proof.
  cbv zeta.
  assert (Hb : Backend.Artifactory <> Backend.HDFS) by discriminate.
  assert (Hok : forall c name key w0,
             snd (fst (openVault c name key w0)) = None)
    by (intros c name key w0; reflexivity).
  split; [reflexivity |]. split; [exact Hb |]. split; [exact Hok |].
  exact (NewDriver_with_working_secret_store demoCreateDriver tt
           (withArtifactory
              (demoArtifactory (ref "art" "user") (ref "art" "token"))
              noArtifact)
           openVault 0 eq_refl Hb Hok).
Defined.

(** X12 on an S3 and an OSS descriptor with the references aws/access and
    aws/secret. *)
Lemma NewDriver_OSS_like_S3_witness :
  let art_S3 := demoS3 (ref "aws" "access") (ref "aws" "secret") in
  let art_OSS := demoOSS (ref "aws" "access") (ref "aws" "secret") in
  let art_s := withS3 art_S3 noArtifact in
  let art_o := withOSS art_OSS noArtifact in
  S3 art_s = Some art_S3 /\
  first_populated art_o = Some Backend.OSS /\
  OSS art_o = Some art_OSS /\
  S3Artifact.AccessKeySecret art_S3 = OSSArtifact.AccessKeySecret art_OSS /\
  S3Artifact.SecretKeySecret art_S3 = OSSArtifact.SecretKeySecret art_OSS /\
  trace (demo art_s) = trace (demo art_o) /\
  world (demo art_s) = world (demo art_o) /\
  snd (value (demo art_s)) = snd (value (demo art_o)) /\
  (snd (value (demo art_s)) = None ->
   exists d_s d_o,
     fst (value (demo art_s)) = Some (S3Driver d_s) /\
     fst (value (demo art_o)) = Some (OSSDriver d_o) /\
     oss.AccessKey d_o = s3.AccessKey d_s /\
     oss.SecretKey d_o = s3.SecretKey d_s).
Proof.
  cbv zeta. do 5 (split; [reflexivity |]).
  exact (NewDriver_OSS_like_S3 demoCreateDriver tt
           (withS3 (demoS3 (ref "aws" "access") (ref "aws" "secret")) noArtifact)
           (withOSS (demoOSS (ref "aws" "access") (ref "aws" "secret")) noArtifact)
           (art_S3 := demoS3 (ref "aws" "access") (ref "aws" "secret"))
           (art_OSS := demoOSS (ref "aws" "access") (ref "aws" "secret"))
           vault 0 eq_refl eq_refl eq_refl eq_refl eq_refl).
Defined.
